(** * reAct-agent: the agent control loop and the event-stream decoder

    A shallow embedding of the Go sources of the repository:
    - [schema/message.go]: [Role], [Message];
    - [tool/types.go], [tool/calculator.go]: [ToolInfo], [Tool], the
      calculator;
    - the agent package ([ReactAgent], [NewReactAgent], [Generate],
      [parseToolCall], [escapeString]);
    - [http_client/client.go]: the options, [NewHTTPClient], [buildURL];
    - the chatmodel package: [NewChatModel] and [ChatModel],
      [NewQWenModelClient], [QWenModelClient.Generate] and the worker
      of [QWenModelClient.Stream].

    Go strings are byte sequences and are modelled by [string] (a list
    of 8-bit [ascii]).  A Go [error] is modelled by its [Error()] text.
    The functions of the Go library that the code calls ([strings],
    [bytes.Buffer], [encoding/json]) are modelled first. *)

From Stdlib Require Import ZArith NArith String Ascii List Bool Lia DecimalString.
From stdpp Require Import base option gmap strings list.
Import ListNotations.

Local Open Scope string_scope.
Local Open Scope list_scope.
Local Open Scope Z_scope.

(** ** Go library functions on strings *)

Module strings.

(** [strings.HasPrefix(s, prefix)]. *)
Fixpoint HasPrefix (s prefix : string) {struct prefix} : bool :=
  match prefix, s with
  | EmptyString, _ => true
  | String p prefix', String c s' => Ascii.eqb c p && HasPrefix s' prefix'
  | String _ _, EmptyString => false
  end.

(** [strings.TrimPrefix(s, prefix)]: [s] without the leading [prefix],
    or [s] itself when it does not start with [prefix]. *)
Fixpoint drop_bytes (n : nat) (s : string) : string :=
  match n, s with
  | O, _ => s
  | S n', String _ s' => drop_bytes n' s'
  | S _, EmptyString => EmptyString
  end.

Definition TrimPrefix (s prefix : string) : string :=
  if HasPrefix s prefix then drop_bytes (String.length prefix) s else s.

(** Membership of a byte in a cutset. *)
Fixpoint in_cutset (c : ascii) (cutset : string) : bool :=
  match cutset with
  | EmptyString => false
  | String d cutset' => Ascii.eqb c d || in_cutset c cutset'
  end.

(** [strings.TrimRight(s, cutset)] for an ASCII cutset: the longest
    prefix of [s] that does not end in a byte of [cutset]. *)
Fixpoint TrimRight (s cutset : string) : string :=
  match s with
  | EmptyString => EmptyString
  | String c s' =>
      match TrimRight s' cutset with
      | EmptyString => if in_cutset c cutset then EmptyString else String c EmptyString
      | t => String c t
      end
  end.

(** [strings.ReplaceAll(s, old, new)] where [old] is the one-byte
    string made of [old]: every occurrence of the byte is replaced.
    The program only calls [ReplaceAll] with one-byte patterns. *)
Fixpoint ReplaceAll (s : string) (old : ascii) (new : string) : string :=
  match s with
  | EmptyString => EmptyString
  | String c s' =>
      if Ascii.eqb c old then new +:+ ReplaceAll s' old new
      else String c (ReplaceAll s' old new)
  end.

End strings.

(** ** encoding/json: the syntax of JSON texts

    [json.Unmarshal] first checks that the whole input is one JSON value
    surrounded by optional white space, then decodes it into the target.
    The syntax tree keeps the members of an object in source order, with
    repetitions, and a number as its literal (Go converts the literal
    when it stores it: to [float64] in an [interface{}], with
    [strconv.ParseInt] in an integer field). *)

#[local] Set Warnings "-register-all".

Inductive json : Type :=
| JNull
| JBool (b : bool)
| JNumber (lit : string)
| JString (s : string)
| JArray (elems : list json)
| JObject (members : list (string * json)).

Module jsonlex.

Inductive token : Type :=
| TLBrace | TRBrace | TLBracket | TRBracket | TColon | TComma
| TString (s : string)
| TNumber (lit : string)
| TTrue | TFalse | TNull.

Definition byte (n : N) : ascii := ascii_of_N n.
Definition dquote : ascii := "034".
Definition code (c : ascii) : N := N_of_ascii c.

(** White space of the JSON grammar: space, tab, line feed, carriage return. *)
Definition is_space (c : ascii) : bool :=
  let n := code c in
  (n =? 32)%N || (n =? 9)%N || (n =? 10)%N || (n =? 13)%N.

Definition punct (c : ascii) : option token :=
  if Ascii.eqb c "{" then Some TLBrace
  else if Ascii.eqb c "}" then Some TRBrace
  else if Ascii.eqb c "[" then Some TLBracket
  else if Ascii.eqb c "]" then Some TRBracket
  else if Ascii.eqb c ":" then Some TColon
  else if Ascii.eqb c "," then Some TComma
  else None.

Definition is_delim (c : ascii) : bool :=
  is_space c || bool_decide (is_Some (punct c)) || Ascii.eqb c dquote.

Definition is_digit (c : ascii) : bool :=
  let n := code c in (48 <=? n)%N && (n <=? 57)%N.

(** The number grammar of JSON as an automaton over the literal: an
    optional minus sign; then 0, or a non-zero digit followed by
    digits; then optionally a dot and one or more digits; then
    optionally e or E, an optional sign and one or more digits. *)
Inductive num_state : Type :=
| NStart | NMinus | NZero | NInt | NDot | NFrac | NExp | NExpSign | NExpDigits.

Definition num_step (st : num_state) (c : ascii) : option num_state :=
  let digit := is_digit c in
  let zero := Ascii.eqb c "0" in
  let dot := Ascii.eqb c "." in
  let e := Ascii.eqb c "e" || Ascii.eqb c "E" in
  let sign := Ascii.eqb c "+" || Ascii.eqb c "-" in
  match st with
  | NStart => if Ascii.eqb c "-" then Some NMinus
              else if zero then Some NZero
              else if digit then Some NInt else None
  | NMinus => if zero then Some NZero else if digit then Some NInt else None
  | NZero => if dot then Some NDot else if e then Some NExp else None
  | NInt => if digit then Some NInt
            else if dot then Some NDot else if e then Some NExp else None
  | NDot => if digit then Some NFrac else None
  | NFrac => if digit then Some NFrac else if e then Some NExp else None
  | NExp => if sign then Some NExpSign else if digit then Some NExpDigits else None
  | NExpSign => if digit then Some NExpDigits else None
  | NExpDigits => if digit then Some NExpDigits else None
  end.

Fixpoint num_run (st : num_state) (s : string) : option num_state :=
  match s with
  | EmptyString => Some st
  | String c s' =>
      match num_step st c with
      | Some st' => num_run st' s'
      | None => None
      end
  end.

Definition valid_number (s : string) : bool :=
  match num_run NStart s with
  | Some (NZero | NInt | NFrac | NExpDigits) => true
  | _ => false
  end.

(** A maximal run of bytes that is neither white space, punctuation
    nor a quote is a literal name or a number. *)
Definition word_token (w : string) : option token :=
  if String.eqb w "true" then Some TTrue
  else if String.eqb w "false" then Some TFalse
  else if String.eqb w "null" then Some TNull
  else if valid_number w then Some (TNumber w)
  else None.

Definition hex_digit (c : ascii) : option N :=
  let n := code c in
  if (48 <=? n)%N && (n <=? 57)%N then Some (n - 48)%N
  else if (97 <=? n)%N && (n <=? 102)%N then Some (n - 87)%N
  else if (65 <=? n)%N && (n <=? 70)%N then Some (n - 55)%N
  else None.

Definition hex4 (a b c d : ascii) : option N :=
  match hex_digit a, hex_digit b, hex_digit c, hex_digit d with
  | Some x, Some y, Some z, Some w => Some (((x * 16 + y) * 16 + z) * 16 + w)%N
  | _, _, _, _ => None
  end.

(** [utf8.EncodeRune] for a code point below [0x110000]. *)
Definition utf8_encode (r : N) : string :=
  if (r <? 128)%N then String (byte r) EmptyString
  else if (r <? 2048)%N then
    String (byte (192 + r / 64)) (String (byte (128 + r mod 64)) EmptyString)
  else if (r <? 65536)%N then
    String (byte (224 + r / 4096))
      (String (byte (128 + (r / 64) mod 64))
         (String (byte (128 + r mod 64)) EmptyString))
  else
    String (byte (240 + r / 262144))
      (String (byte (128 + (r / 4096) mod 64))
         (String (byte (128 + (r / 64) mod 64))
            (String (byte (128 + r mod 64)) EmptyString))).

Definition replacement_char : N := 65533.
Definition is_surrogate (r : N) : bool := (55296 <=? r)%N && (r <? 57344)%N.
Definition is_high (r : N) : bool := (55296 <=? r)%N && (r <? 56320)%N.
Definition is_low (r : N) : bool := (56320 <=? r)%N && (r <? 57344)%N.

(** The escape sequences of a string literal ([unquote] of the
    decoder).  A lone surrogate becomes U+FFFD; a high surrogate
    followed by an escaped low surrogate is one code point. *)
Fixpoint unquote (s : string) : option string :=
  match s with
  | EmptyString => Some EmptyString
  | String c r =>
      if Ascii.eqb c "\" then
        match r with
        | EmptyString => None
        | String e r1 =>
            let simple (b : N) := String (byte b) <$> unquote r1 in
            if Ascii.eqb e dquote then simple 34%N
            else if Ascii.eqb e "\" then simple 92%N
            else if Ascii.eqb e "/" then simple 47%N
            else if Ascii.eqb e "b" then simple 8%N
            else if Ascii.eqb e "f" then simple 12%N
            else if Ascii.eqb e "n" then simple 10%N
            else if Ascii.eqb e "r" then simple 13%N
            else if Ascii.eqb e "t" then simple 9%N
            else if Ascii.eqb e "u" then
              match r1 with
              | String h1 (String h2 (String h3 (String h4 r2))) =>
                  match hex4 h1 h2 h3 h4 with
                  | None => None
                  | Some rr =>
                      if is_surrogate rr then
                        match r2 with
                        | String b1 (String b2 (String g1 (String g2 (String g3 (String g4 r3))))) =>
                            match
                              (if Ascii.eqb b1 "\" && Ascii.eqb b2 "u"
                               then hex4 g1 g2 g3 g4 else None)
                            with
                            | Some rr1 =>
                                if is_high rr && is_low rr1 then
                                  String.append
                                    (utf8_encode ((rr - 55296) * 1024 + (rr1 - 56320) + 65536)%N)
                                    <$> unquote r3
                                else String.append (utf8_encode replacement_char) <$> unquote r2
                            | None => String.append (utf8_encode replacement_char) <$> unquote r2
                            end
                        | _ => String.append (utf8_encode replacement_char) <$> unquote r2
                        end
                      else String.append (utf8_encode rr) <$> unquote r2
                  end
              | _ => None
              end
            else None
        end
      else String c <$> unquote r
  end.

Inductive mode : Type :=
| LIdle
| LWord (w : string)
| LStr (body : string)
| LStrEsc (body : string).

Definition snoc (s : string) (c : ascii) : string := s +:+ String c EmptyString.

(** The scanner, one byte at a time. *)
Fixpoint lex (m : mode) (s : string) : option (list token) :=
  match s with
  | EmptyString =>
      match m with
      | LIdle => Some []
      | LWord w => t ← word_token w; Some [t]
      | LStr _ | LStrEsc _ => None
      end
  | String c r =>
      let idle (_ : unit) : option (list token) :=
        if is_space c then lex LIdle r
        else match punct c with
             | Some t => cons t <$> lex LIdle r
             | None => if Ascii.eqb c dquote then lex (LStr EmptyString) r
                       else lex (LWord (String c EmptyString)) r
             end in
      match m with
      | LIdle => idle tt
      | LWord w =>
          if is_delim c then t ← word_token w; ts ← idle tt; Some (t :: ts)
          else lex (LWord (snoc w c)) r
      | LStr body =>
          if Ascii.eqb c dquote then
            str ← unquote body; ts ← lex LIdle r; Some (TString str :: ts)
          else if Ascii.eqb c "\" then lex (LStrEsc (snoc body c)) r
          else if (code c <? 32)%N then None
          else lex (LStr (snoc body c)) r
      | LStrEsc body => lex (LStr (snoc body c)) r
      end
  end.

End jsonlex.

Module jsonparse.
Import jsonlex.

(** A container whose closing bracket has not been read yet. *)
Inductive frame : Type :=
| FArray (rev_elems : list json)
| FObject (rev_members : list (string * json)) (key : string).

Inductive state : Type :=
| SValue (stk : list frame)
| SArrayOpen (stk : list frame)
| SArrayNext (rev_elems : list json) (stk : list frame)
| SObjectOpen (stk : list frame)
| SObjectKey (rev_members : list (string * json)) (stk : list frame)
| SObjectColon (rev_members : list (string * json)) (key : string) (stk : list frame)
| SObjectNext (rev_members : list (string * json)) (stk : list frame)
| SDone (v : json).

Definition complete (v : json) (stk : list frame) : state :=
  match stk with
  | [] => SDone v
  | FArray es :: stk' => SArrayNext (v :: es) stk'
  | FObject ms k :: stk' => SObjectNext ((k, v) :: ms) stk'
  end.

Definition begin_value (t : token) (stk : list frame) : option state :=
  match t with
  | TLBrace => Some (SObjectOpen stk)
  | TLBracket => Some (SArrayOpen stk)
  | TString s => Some (complete (JString s) stk)
  | TNumber n => Some (complete (JNumber n) stk)
  | TTrue => Some (complete (JBool true) stk)
  | TFalse => Some (complete (JBool false) stk)
  | TNull => Some (complete JNull stk)
  | TRBrace | TRBracket | TColon | TComma => None
  end.

Definition step (st : state) (t : token) : option state :=
  match st, t with
  | SValue stk, _ => begin_value t stk
  | SArrayOpen stk, TRBracket => Some (complete (JArray []) stk)
  | SArrayOpen stk, _ => begin_value t (FArray [] :: stk)
  | SArrayNext es stk, TComma => Some (SValue (FArray es :: stk))
  | SArrayNext es stk, TRBracket => Some (complete (JArray (rev es)) stk)
  | SObjectOpen stk, TRBrace => Some (complete (JObject []) stk)
  | SObjectOpen stk, TString k => Some (SObjectColon [] k stk)
  | SObjectKey ms stk, TString k => Some (SObjectColon ms k stk)
  | SObjectColon ms k stk, TColon => Some (SValue (FObject ms k :: stk))
  | SObjectNext ms stk, TComma => Some (SObjectKey ms stk)
  | SObjectNext ms stk, TRBrace => Some (complete (JObject (rev ms)) stk)
  | _, _ => None
  end.

Fixpoint run (st : state) (ts : list token) : option json :=
  match ts with
  | [] => match st with SDone v => Some v | _ => None end
  | t :: ts' => st' ← step st t; run st' ts'
  end.

(** One JSON value, surrounded by optional white space. *)
Definition parse (s : string) : option json :=
  ts ← lex LIdle s; run (SValue []) ts.

End jsonparse.

(** ** Writing string literals

    The literals of this development are written with an apostrophe
    where the Go source has a double quote: [dq s] is [s] with every
    apostrophe replaced by a double quote. *)

Definition dq (s : string) : string :=
  strings.ReplaceAll s "'"%char (String jsonlex.dquote EmptyString).

(** A Go [error], by its [Error()] text; [None] is the [nil] error. *)
Definition error : Type := string.

(** ** encoding/json: decoding into [map[string]interface{}]

    The decoded [interface{}] values are read through type assertions.
    A map is a [gmap]; the [nil] map is [None].  Of repeated member
    names the last one is the one left in the map.  Number literals
    are assumed to lie in the range of [float64]. *)

Module gojson.

Definition gomap : Type := option (gmap string json).

Definition object_map (members : list (string * json)) : gmap string json :=
  list_to_map (rev members).

(** [m[k]]: indexing the [nil] map gives the zero value. *)
Definition index (m : gomap) (k : string) : option json :=
  match m with
  | Some g => g !! k
  | None => None
  end.

(** [v, ok := x.(string)]. *)
Definition as_string (x : option json) : option string :=
  match x with
  | Some (JString s) => Some s
  | _ => None
  end.

(** [v, ok := x.(map[string]interface{})]. *)
Definition as_map (x : option json) : option (gmap string json) :=
  match x with
  | Some (JObject members) => Some (object_map members)
  | _ => None
  end.

(** [json.Unmarshal([]byte(content), &raw)] for [raw] a [nil]
    [map[string]interface{}]: an object fills a new map, [null]
    leaves [raw] as it is, anything else is an error ([None]). *)
Definition Unmarshal_map (content : string) : option gomap :=
  match jsonparse.parse content with
  | Some (JObject members) => Some (Some (object_map members))
  | Some JNull => Some None
  | _ => None
  end.

End gojson.

(** ** package schema *)

Module schema.

(** [Role] is an [int]; the constants are 0 to 3, and a message can
    hold any other value. *)
Definition Role : Type := Z.
Definition RoleUser : Role := 0.
Definition RoleSystem : Role := 1.
Definition RoleAssistant : Role := 2.
Definition RoleTool : Role := 3.

(** [Role.String]: a [switch] whose default case also gives "user". *)
Definition Role_String (r : Role) : string :=
  if r =? RoleUser then "user"
  else if r =? RoleSystem then "system"
  else if r =? RoleAssistant then "assistant"
  else if r =? RoleTool then "tool"
  else "user".

(** One of the four constants. *)
Definition known_role (r : Role) : bool := (RoleUser <=? r) && (r <=? RoleTool).

Record Message : Type := { MsgRole : Role; Content : string }.

#[global] Instance Role_eq_dec : EqDecision Role.
Proof. unfold Role. apply _. Defined.

End schema.
Export schema.

(** ** package tool *)

Module tool.

Inductive DataType : Type :=
| Integer | String_ | Number | Boolean | Object | Array.

Inductive ParameterInfo : Type :=
  { PName : string;
    PType : DataType;
    PDesc : string;
    Required : bool;
    ElemInfo : option ParameterInfo;
    SubInfo : list (string * ParameterInfo) }.

Record ToolInfo : Type :=
  { Name : string;
    Desc : string;
    Parameters : list (string * ParameterInfo) }.

End tool.

(** ** package agent *)

Module agent.
Import gojson tool.

(** The value produced by [parseToolCall]. *)
Record ToolCall : Type := { CallName : string; Args : gomap }.

Definition ToolCall_zero : ToolCall := {| CallName := ""; Args := None |}.

Definition parseToolCall (content : string) : ToolCall * bool :=
  match Unmarshal_map content with
  | Some raw =>
      let name := "" in
      let name := match as_string (index raw "tool") with
                  | Some v => v
                  | None => name
                  end in
      let name := match as_string (index raw "name") with
                  | Some v => if String.eqb name "" then v else name
                  | None => name
                  end in
      let name := match as_map (index raw "function") with
                  | Some fn =>
                      if String.eqb name "" then
                        match as_string (index (Some fn) "name") with
                        | Some v => v
                        | None => name
                        end
                      else name
                  | None => name
                  end in
      let args : gomap :=
        match as_map (index raw "arguments") with
        | Some v => Some v
        | None =>
            match as_map (index raw "args") with
            | Some v => Some v
            | None =>
                match as_map (index raw "input") with
                | Some v => Some v
                | None => None
                end
            end
        end in
      if negb (String.eqb name "") then ({| CallName := name; Args := args |}, true)
      else (ToolCall_zero, false)
  | None => (ToolCall_zero, false)
  end.

Definition escapeString (s : string) : string :=
  let s := strings.ReplaceAll s "\"%char "\\" in
  let s := strings.ReplaceAll s jsonlex.dquote (dq "\'") in
  let s := strings.ReplaceAll s "010"%char "\n" in
  s.

(** The reply of [ChatModel.Generate]: a message or [nil], and an error or [nil]. *)
Definition ModelReply : Type := option Message * option error.

Section Agent.

(** [Value] stands for the [interface{}] results of tools,
    [json_Marshal] for [json.Marshal] on them ([None] when it
    returns an error) and [fmt_v] for their [%v] formatting.
    [MState] is whatever the model backend keeps between calls. *)
Context {Value : Type}.
Variable json_Marshal : Value -> option string.
Variable fmt_v : Value -> string.
Context {MState : Type}.

Record Tool : Type :=
  { Info : ToolInfo;
    Execute : gomap -> Value * option error }.

Record ChatModel : Type :=
  { ModelGenerate : MState -> list Message -> ModelReply * MState;
    BindTools : MState -> list ToolInfo -> MState }.

Record ReactAgentConfig : Type :=
  { MaxStep : Z;
    Model : option ChatModel;
    Tools : list Tool }.

Record State : Type := { messages : list Message }.

Record ReactAgent : Type := { state : State; conf : ReactAgentConfig }.

Definition ReactAgentOption : Type := ReactAgent -> ReactAgent.

Definition WithMaxStep (maxStep : Z) : ReactAgentOption :=
  fun ra =>
    {| state := state ra;
       conf := {| MaxStep := maxStep;
                  Model := Model (conf ra);
                  Tools := Tools (conf ra) |} |}.

(** The model backend as the agent sees it: its state, and the
    record of the calls of [Generate] made on it (the history
    passed and the reply), oldest first. *)
Record World : Type :=
  { model_state : MState;
    calls : list (list Message * ModelReply) }.

Definition call_model (m : ChatModel) (w : World) (history : list Message)
  : ModelReply * World :=
  let '(reply, s) := ModelGenerate m (model_state w) history in
  (reply, {| model_state := s; calls := calls w ++ [(history, reply)] |}).

(** [NewReactAgent].  The options act on the agent; [conf] is a
    pointer shared with the agent, so the tools are read after the
    options ran.  The error returned is always [nil]. *)
Definition apply_options (ra : ReactAgent) (opts : list ReactAgentOption) : ReactAgent :=
  fold_left (fun ra opt => opt ra) opts ra.

Definition NewReactAgent (conf0 : ReactAgentConfig) (opts : list ReactAgentOption)
    (w : World) : ReactAgent * option error * World :=
  let ra := {| state := {| messages := [] |}; conf := conf0 |} in
  let ra := apply_options ra opts in
  let infos := map Info (Tools (conf ra)) in
  let w := match Model (conf ra) with
           | Some m => {| model_state := BindTools m (model_state w) infos;
                          calls := calls w |}
           | None => w
           end in
  let ra := if MaxStep (conf ra) =? 0
            then {| state := state ra;
                    conf := {| MaxStep := 8;
                               Model := Model (conf ra);
                               Tools := Tools (conf ra) |} |}
            else ra in
  (ra, None, w).

(** What [Generate] returns: the message, the error and the state pointer. *)
Record Result : Type :=
  { res_msg : Message;
    res_err : option error;
    res_state : option State }.

Definition assistant (content : string) : Message :=
  {| MsgRole := RoleAssistant; Content := content |}.

(** The first tool whose name is [name]. *)
Definition select_tool (tools : list Tool) (name : string) : option Tool :=
  List.find (fun t => String.eqb (Name (Info t)) name) tools.

(** One iteration of the loop after the model replied: either the
    function returns, or the loop goes on; both with the new history. *)
Inductive Step : Type :=
| Return (r : Result) (msgs : list Message)
| Continue (msgs : list Message).

Definition react (tools : list Tool) (msgs : list Message) (reply : ModelReply) : Step :=
  match reply with
  | (_, Some err) =>
      Return {| res_msg := assistant err; res_err := Some err; res_state := None |} msgs
  | (None, None) =>
      Return {| res_msg := assistant "empty message returned";
                res_err := None; res_state := None |} msgs
  | (Some msg, None) =>
      if MsgRole msg =? RoleTool then
        let msgs := msgs ++ [msg] in
        let '(call, ok) := parseToolCall (Content msg) in
        if negb ok || String.eqb (CallName call) "" then
          Return {| res_msg := assistant "invalid tool call payload";
                    res_err := None; res_state := None |} msgs
        else
          match select_tool tools (CallName call) with
          | None =>
              Return {| res_msg := assistant ("tool '" +:+ CallName call +:+ "' not found");
                        res_err := None; res_state := None |} msgs
          | Some selected =>
              let '(result, execErr) := Execute selected (Args call) in
              let toolContent :=
                match execErr with
                | Some e => dq "{'error':'" +:+ escapeString e +:+ dq "'}"
                | None =>
                    match json_Marshal result with
                    | Some b => b
                    | None => dq "{'result':'" +:+ fmt_v result +:+ dq "'}"
                    end
                end in
              Continue (msgs ++ [{| MsgRole := RoleTool; Content := toolContent |}])
          end
      else if MsgRole msg =? RoleAssistant then
        Return {| res_msg := msg; res_err := None; res_state := None |} (msgs ++ [msg])
      else Continue (msgs ++ [msg])
  end.

(** The loop [for step := 0; step < MaxStep; step++], by the number
    of iterations left ([step] is not used in the body). *)
Fixpoint loop (left : nat) (m : ChatModel) (tools : list Tool)
    (msgs : list Message) (w : World) : Result * list Message * World :=
  match left with
  | O => ({| res_msg := assistant "max steps reached";
             res_err := None;
             res_state := Some {| messages := msgs |} |}, msgs, w)
  | S left' =>
      let '(reply, w') := call_model m w msgs in
      match react tools msgs reply with
      | Return r msgs' => (r, msgs', w')
      | Continue msgs' => loop left' m tools msgs' w'
      end
  end.

Definition Generate (r : ReactAgent) (w : World) (history : list Message)
  : Result * ReactAgent * World :=
  match Model (conf r) with
  | None =>
      ({| res_msg := assistant "model not initialized";
          res_err := None; res_state := None |}, r, w)
  | Some m =>
      let msgs := messages (state r) ++ history in
      let '(res, msgs', w') :=
        loop (Z.to_nat (MaxStep (conf r))) m (Tools (conf r)) msgs w in
      (res, {| state := {| messages := msgs' |}; conf := conf r |}, w')
  end.

(** The calls of the model made between two states of the world. *)
Definition made (w w' : World) : list (list Message * ModelReply) :=
  drop (length (calls w)) (calls w').

(** Successive calls of [Generate] on one agent. *)
Fixpoint Generates (r : ReactAgent) (w : World) (histories : list (list Message))
  : list Result * ReactAgent * World :=
  match histories with
  | [] => ([], r, w)
  | history :: histories' =>
      let '(res, r', w') := Generate r w history in
      let '(ress, r'', w'') := Generates r' w' histories' in
      (res :: ress, r'', w'')
  end.


(** The content of the tool-role message appended after a tool ran. *)
Definition tool_content (out : Value * option error) : string :=
  match out with
  | (_, Some e) => dq "{'error':'" +:+ escapeString e +:+ dq "'}"
  | (result, None) =>
      match json_Marshal result with
      | Some b => b
      | None => dq "{'result':'" +:+ fmt_v result +:+ dq "'}"
      end
  end.

(** The record of the calls of one run of the loop with [n] steps left
    from the history [msgs]: the calls, the result and the history at
    the end. *)
Inductive run_of (tools : list Tool) :
  nat -> list Message -> list (list Message * ModelReply) ->
  Result -> list Message -> Prop :=
| run_exhausted msgs :
    run_of tools 0 msgs []
      {| res_msg := assistant "max steps reached"; res_err := None;
         res_state := Some {| messages := msgs |} |} msgs
| run_return n msgs reply r msgs' :
    react tools msgs reply = Return r msgs' ->
    run_of tools (S n) msgs [(msgs, reply)] r msgs'
| run_continue n msgs reply msgs1 new r msgs' :
    react tools msgs reply = Continue msgs1 ->
    run_of tools n msgs1 new r msgs' ->
    run_of tools (S n) msgs ((msgs, reply) :: new) r msgs'.

End Agent.

(** *** The parsing rule in the words of the specification

    The name is the first of [tool], [name] and [function.name] that
    holds a non-empty string; the arguments are the first of
    [arguments], [args] and [input] that holds an object. *)

Definition nonempty (o : option string) : option string :=
  match o with
  | Some s => if String.eqb s "" then None else Some s
  | None => None
  end.

Fixpoint first_some {A : Type} (l : list (option A)) : option A :=
  match l with
  | [] => None
  | Some a :: _ => Some a
  | None :: l' => first_some l'
  end.

Definition name_aliases (raw : gomap) : list (option string) :=
  [ as_string (index raw "tool");
    as_string (index raw "name");
    match as_map (index raw "function") with
    | Some fn => as_string (fn !! "name")
    | None => None
    end ].

Definition args_aliases (raw : gomap) : list (option (gmap string json)) :=
  [ as_map (index raw "arguments");
    as_map (index raw "args");
    as_map (index raw "input") ].

Definition parseToolCall_spec (content : string) : ToolCall * bool :=
  match Unmarshal_map content with
  | None => (ToolCall_zero, false)
  | Some raw =>
      match first_some (map nonempty (name_aliases raw)) with
      | Some name => ({| CallName := name; Args := first_some (args_aliases raw) |}, true)
      | None => (ToolCall_zero, false)
      end
  end.

(** [escapeString] byte by byte. *)
Definition escape_byte (c : ascii) : string :=
  if Ascii.eqb c "\"%char then "\\"
  else if Ascii.eqb c jsonlex.dquote then dq "\'"
  else if Ascii.eqb c "010"%char then "\n"
  else String c EmptyString.

Fixpoint escape_bytes (s : string) : string :=
  match s with
  | EmptyString => EmptyString
  | String c s' => escape_byte c +:+ escape_bytes s'
  end.

(** A byte below 32 occurs in [s]. *)
Fixpoint has_control (s : string) : bool :=
  match s with
  | EmptyString => false
  | String c s' => (jsonlex.code c <? 32)%N || has_control s'
  end.

(** Printable ASCII or a line feed. *)
Definition plain_byte (c : ascii) : bool :=
  ((32 <=? jsonlex.code c) && (jsonlex.code c <? 128))%N || (jsonlex.code c =? 10)%N.

Fixpoint plain (s : string) : bool :=
  match s with
  | EmptyString => true
  | String c s' => plain_byte c && plain s'
  end.

(** A control character other than the line feed occurs in [s]. *)
Fixpoint has_other_control (s : string) : bool :=
  match s with
  | EmptyString => false
  | String c s' =>
      ((jsonlex.code c <? 32)%N && negb (jsonlex.code c =? 10)%N) || has_other_control s'
  end.

End agent.

(** ** bytes.Buffer *)

Module bytes.

(** The unread part of the buffer. *)
Record Buffer : Type := { unread : string }.

Definition io_EOF : error := "EOF".

(** [b.Write(p)] appends [p]. *)
Definition Write (b : Buffer) (p : string) : Buffer :=
  {| unread := unread b +:+ p |}.

(** [s] cut after the first [delim]: the part up to and including
    it, and the rest; [None] when [delim] does not occur. *)
Fixpoint cut (s : string) (delim : ascii) : option (string * string) :=
  match s with
  | EmptyString => None
  | String c s' =>
      if Ascii.eqb c delim then Some (String c EmptyString, s')
      else match cut s' delim with
           | Some (line, rest) => Some (String c line, rest)
           | None => None
           end
  end.

(** [b.ReadString(delim)] ([readSlice] in the Go library): with a
    [delim] in the buffer, the data up to and including it is read.
    Without one, [end = len(b.buf)], [err = io.EOF], and the read
    offset moves to [end]: all the unread data is returned together
    with [io.EOF] and is no longer in the buffer. *)
Definition ReadString (b : Buffer) (delim : ascii) : (string * option error) * Buffer :=
  match cut (unread b) delim with
  | Some (line, rest) => ((line, None), {| unread := rest |})
  | None => ((unread b, Some io_EOF), {| unread := EmptyString |})
  end.

End bytes.

(** ** package httpclient *)

Module httpclient.

(** [map[string]string]; a [time.Duration] is a number of nanoseconds. *)
Definition HTTPHeader : Type := gmap string string.
Definition Duration : Type := Z.
Definition Second : Duration := 1000000000.
Definition Minute : Duration := 60 * Second.

(** The [header] field is a pointer: [None] is [nil]. *)
Record HTTPClient : Type :=
  { baseUrl : string;
    path : string;
    header : option HTTPHeader;
    timeout : Duration }.

(** An option is a function on the client, or [nil]. *)
Definition Option : Type := option (HTTPClient -> HTTPClient).

(** [WithHeader(h)]; [h] is a map or [nil]. *)
Definition WithHeader (h : option HTTPHeader) : Option :=
  Some (fun c =>
          match h with
          | None => c
          | Some m => {| baseUrl := baseUrl c; path := path c;
                         header := Some m; timeout := timeout c |}
          end).

Definition WithTimeout (d : Duration) : Option :=
  Some (fun c =>
          if d <=? 0 then c
          else {| baseUrl := baseUrl c; path := path c;
                  header := header c; timeout := d |}).

Definition defaultHeader : HTTPHeader :=
  {[ "Content-Type" := "application/json"; "Accept" := "application/json" ]}.

Definition NewHTTPClient (baseUrl path : string) (opts : list Option) : HTTPClient :=
  let c := {| baseUrl := baseUrl; path := path;
              header := Some defaultHeader; timeout := 30 * Second |} in
  fold_left (fun c opt => match opt with
                          | Some f => f c
                          | None => c
                          end) opts c.

Definition NewDefaultHTTPClient (opts : list Option) : HTTPClient :=
  NewHTTPClient "" "" opts.

(** [s[len(s)-1]] and [s[0]] of a non-empty string, [s[1:]]. *)
Fixpoint last_byte (s : string) : option ascii :=
  match s with
  | EmptyString => None
  | String c EmptyString => Some c
  | String _ s' => last_byte s'
  end.

Definition first_byte (s : string) : option ascii :=
  match s with
  | EmptyString => None
  | String c _ => Some c
  end.

Definition is_slash (o : option ascii) : bool :=
  match o with
  | Some c => Ascii.eqb c "/"
  | None => false
  end.

(** [buildURL] on a receiver that may be [nil]. *)
Definition buildURL (c : option HTTPClient) : string :=
  match c with
  | None => ""
  | Some c =>
      let base := baseUrl c in
      let p := path c in
      if String.eqb base "" then p
      else if String.eqb p "" then base
      else if is_slash (last_byte base) && is_slash (first_byte p)
           then base +:+ strings.drop_bytes 1 p
      else if negb (is_slash (last_byte base)) && negb (is_slash (first_byte p))
           then base +:+ "/" +:+ p
      else base +:+ p
  end.

(** [s] without its last byte. *)
Fixpoint drop_last (s : string) : string :=
  match s with
  | EmptyString => EmptyString
  | String _ EmptyString => EmptyString
  | String c s' => String c (drop_last s')
  end.

(** [s] without one trailing slash, and without one leading slash. *)
Definition without_trailing_slash (s : string) : string :=
  if is_slash (last_byte s) then drop_last s else s.
Definition without_leading_slash (s : string) : string :=
  if is_slash (first_byte s) then strings.drop_bytes 1 s else s.

(** The options made by [WithHeader] and [WithTimeout], and [nil]. *)
Definition package_option (o : Option) : Prop :=
  o = None \/ (exists h, o = WithHeader h) \/ (exists d, o = WithTimeout d).

End httpclient.

(** ** package chatmodel: the worker of [QWenModelClient.Stream] *)

Module chatmodel.
Import jsonlex.

Record QWenMessage : Type := { QRole : string; QContent : string }.

Record QWenChoice : Type :=
  { Index : Z;
    ChoiceMessage : QWenMessage;
    Delta : QWenMessage;
    FinishReason : string }.

Record QWenStreamResponse : Type :=
  { ID : string;
    Object : string;
    Created : Z;
    RespModel : string;
    Choices : list QWenChoice }.

Definition QWenMessage_zero : QWenMessage := {| QRole := ""; QContent := "" |}.
Definition QWenChoice_zero : QWenChoice :=
  {| Index := 0; ChoiceMessage := QWenMessage_zero;
     Delta := QWenMessage_zero; FinishReason := "" |}.
Definition QWenStreamResponse_zero : QWenStreamResponse :=
  {| ID := ""; Object := ""; Created := 0; RespModel := ""; Choices := [] |}.

(** *** encoding/json: decoding into the response struct

    A member is stored in the field whose [json] tag equals its name
    up to case folding; other members are skipped.  [null] leaves a
    string, integer or struct field as it is and empties a slice;
    a value of the wrong kind makes [Unmarshal] return an error.  A
    member is decoded into what the field holds already, so a
    repeated name adds to what the earlier one stored. *)

Definition lower (c : ascii) : ascii :=
  let n := code c in
  if (65 <=? n)%N && (n <=? 90)%N then byte (n + 32) else c.

(** Case folding of a member name: ASCII letters, and the two other
    code points that fold to ASCII letters (U+017F to s, U+212A to k). *)
Fixpoint fold_name (s : string) : string :=
  match s with
  | EmptyString => EmptyString
  | String c r =>
      match (code c, r) with
      | (197%N, String d r1) =>
          if (code d =? 191)%N then String "s" (fold_name r1)
          else String c (fold_name r)
      | (226%N, String d (String e r2)) =>
          if (code d =? 132)%N && (code e =? 170)%N then String "k" (fold_name r2)
          else String c (fold_name r)
      | _ => String (lower c) (fold_name r)
      end
  end.

Definition is_field (key tag : string) : bool := String.eqb (fold_name key) tag.

Fixpoint digits_value (acc : Z) (s : string) : option Z :=
  match s with
  | EmptyString => Some acc
  | String c r =>
      if is_digit c then digits_value (acc * 10 + Z.of_N (code c) - 48) r else None
  end.

(** [strconv.ParseInt(lit, 10, 64)] on a number literal. *)
Definition parse_int64 (lit : string) : option Z :=
  let signed :=
    match lit with
    | String "-" (String c r) => Z.opp <$> digits_value 0 (String c r)
    | String _ _ => digits_value 0 lit
    | EmptyString => None
    end in
  match signed with
  | Some v => if (- 2 ^ 63 <=? v) && (v <? 2 ^ 63) then Some v else None
  | None => None
  end.

Definition decode_string (cur : string) (j : json) : option string :=
  match j with
  | JString s => Some s
  | JNull => Some cur
  | _ => None
  end.

Definition decode_int (cur : Z) (j : json) : option Z :=
  match j with
  | JNumber lit => parse_int64 lit
  | JNull => Some cur
  | _ => None
  end.

Definition decode_message_member (cur : QWenMessage) (kv : string * json)
  : option QWenMessage :=
  let '(k, v) := kv in
  if is_field k "role" then
    s ← decode_string (QRole cur) v; Some {| QRole := s; QContent := QContent cur |}
  else if is_field k "content" then
    s ← decode_string (QContent cur) v; Some {| QRole := QRole cur; QContent := s |}
  else Some cur.

(** The members of an object, in order, each into the value so far. *)
Fixpoint decode_members {A : Type} (f : A -> string * json -> option A)
    (cur : A) (members : list (string * json)) : option A :=
  match members with
  | [] => Some cur
  | kv :: members' =>
      match f cur kv with
      | Some cur' => decode_members f cur' members'
      | None => None
      end
  end.

Definition decode_message (cur : QWenMessage) (j : json) : option QWenMessage :=
  match j with
  | JObject members => decode_members decode_message_member cur members
  | JNull => Some cur
  | _ => None
  end.

Definition decode_choice_member (cur : QWenChoice) (kv : string * json)
  : option QWenChoice :=
  let '(k, v) := kv in
  if is_field k "index" then
    n ← decode_int (Index cur) v;
    Some {| Index := n; ChoiceMessage := ChoiceMessage cur;
            Delta := Delta cur; FinishReason := FinishReason cur |}
  else if is_field k "message" then
    m ← decode_message (ChoiceMessage cur) v;
    Some {| Index := Index cur; ChoiceMessage := m;
            Delta := Delta cur; FinishReason := FinishReason cur |}
  else if is_field k "delta" then
    m ← decode_message (Delta cur) v;
    Some {| Index := Index cur; ChoiceMessage := ChoiceMessage cur;
            Delta := m; FinishReason := FinishReason cur |}
  else if is_field k "finish_reason" then
    s ← decode_string (FinishReason cur) v;
    Some {| Index := Index cur; ChoiceMessage := ChoiceMessage cur;
            Delta := Delta cur; FinishReason := s |}
  else Some cur.

Definition decode_choice (cur : QWenChoice) (j : json) : option QWenChoice :=
  match j with
  | JObject members => decode_members decode_choice_member cur members
  | JNull => Some cur
  | _ => None
  end.

(** The elements of an array into a slice: element [i] into the
    element of that index when the slice has one, into a zero value
    otherwise; the slice ends up as long as the array. *)
Fixpoint decode_elems (cur : list QWenChoice) (elems : list json)
  : option (list QWenChoice) :=
  match elems with
  | [] => Some []
  | j :: elems' =>
      let '(c, cur') := match cur with
                        | c :: cur' => (c, cur')
                        | [] => (QWenChoice_zero, [])
                        end in
      match decode_choice c j with
      | Some c' => cons c' <$> decode_elems cur' elems'
      | None => None
      end
  end.

Definition decode_choices (cur : list QWenChoice) (j : json) : option (list QWenChoice) :=
  match j with
  | JArray elems => decode_elems cur elems
  | JNull => Some []
  | _ => None
  end.

Definition decode_response_member (cur : QWenStreamResponse) (kv : string * json)
  : option QWenStreamResponse :=
  let '(k, v) := kv in
  if is_field k "id" then
    s ← decode_string (ID cur) v;
    Some {| ID := s; Object := Object cur; Created := Created cur;
            RespModel := RespModel cur; Choices := Choices cur |}
  else if is_field k "object" then
    s ← decode_string (Object cur) v;
    Some {| ID := ID cur; Object := s; Created := Created cur;
            RespModel := RespModel cur; Choices := Choices cur |}
  else if is_field k "created" then
    n ← decode_int (Created cur) v;
    Some {| ID := ID cur; Object := Object cur; Created := n;
            RespModel := RespModel cur; Choices := Choices cur |}
  else if is_field k "model" then
    s ← decode_string (RespModel cur) v;
    Some {| ID := ID cur; Object := Object cur; Created := Created cur;
            RespModel := s; Choices := Choices cur |}
  else if is_field k "choices" then
    cs ← decode_choices (Choices cur) v;
    Some {| ID := ID cur; Object := Object cur; Created := Created cur;
            RespModel := RespModel cur; Choices := cs |}
  else Some cur.

(** [json.Unmarshal([]byte(data), &streamResp)] for a zero
    [streamResp]; [None] when it returns an error. *)
Definition Unmarshal_stream (data : string) : option QWenStreamResponse :=
  match jsonparse.parse data with
  | Some (JObject members) =>
      decode_members decode_response_member QWenStreamResponse_zero members
  | Some JNull => Some QWenStreamResponse_zero
  | _ => None
  end.

(** *** The worker goroutine

    The state of the worker: its buffer, what it has sent on
    [msgChan] and on [errChan] (oldest first).  The consumer is
    taken to receive, so that a send does not block. *)
Record Worker : Type :=
  { buf : bytes.Buffer;
    msgChan : list Message;
    errChan : list error }.

Definition Worker_init : Worker :=
  {| buf := {| bytes.unread := EmptyString |}; msgChan := []; errChan := [] |}.

Definition with_buf (w : Worker) (b : bytes.Buffer) : Worker :=
  {| buf := b; msgChan := msgChan w; errChan := errChan w |}.

Definition send_msg (w : Worker) (m : Message) : Worker :=
  {| buf := buf w; msgChan := msgChan w ++ [m]; errChan := errChan w |}.

Definition send_err (w : Worker) (e : error) : Worker :=
  {| buf := buf w; msgChan := msgChan w; errChan := errChan w ++ [e] |}.

(** How a piece of the worker's code ends: [Select] goes back to the
    [select] statement, [Exit] returns from the goroutine (the
    deferred calls then close both channels).  [NoFuel] is for the
    bounded unrolling of the inner loop only. *)
Inductive Flow : Type :=
| Select (w : Worker)
| Exit (w : Worker)
| NoFuel.

Definition CRLF : string := String "013" (String "010" EmptyString).
Definition LF : ascii := "010".

(** The inner loop: the lines of the buffer. *)
Fixpoint read_lines (fuel : nat) (w : Worker) : Flow :=
  match fuel with
  | O => NoFuel
  | S fuel' =>
      let '((line, err), b) := bytes.ReadString (buf w) LF in
      let w := with_buf w b in
      match err with
      | Some e =>
          if String.eqb e bytes.io_EOF then Select w
          else Exit (send_err w ("failed to read stream: " +:+ e))
      | None =>
          let line := strings.TrimRight line CRLF in
          if String.eqb line "" || strings.HasPrefix line ":" then read_lines fuel' w
          else if negb (strings.HasPrefix line "data: ") then read_lines fuel' w
          else
            let data := strings.TrimPrefix line "data: " in
            if String.eqb data "[DONE]" then Exit w
            else
              match Unmarshal_stream data with
              | None => read_lines fuel' w
              | Some streamResp =>
                  match Choices streamResp with
                  | choice :: _ =>
                      if negb (String.eqb (QContent (Delta choice)) "") then
                        read_lines fuel'
                          (send_msg w {| MsgRole := RoleAssistant;
                                         Content := QContent (Delta choice) |})
                      else read_lines fuel' w
                  | [] => read_lines fuel' w
                  end
              end
      end
  end.

(** Each turn of the inner loop but the last takes a line out of the
    buffer, so one more turn than the buffer has bytes is enough. *)
Definition enough (w : Worker) : nat := S (String.length (bytes.unread (buf w))).

Definition drain (w : Worker) : Flow := read_lines (enough w) w.

(** What the [select] statement receives. *)
Inductive Event : Type :=
| RecvChunk (body : string)
| StreamClosed
| RecvErr (err : option error)
| ErrsClosed
| CtxDone (err : error).

Definition on_event (w : Worker) (ev : Event) : Flow :=
  match ev with
  | RecvChunk body => drain (with_buf w (bytes.Write (buf w) body))
  | StreamClosed => Exit w
  | RecvErr (Some err) => Exit (send_err w ("failed to read stream: " +:+ err))
  | RecvErr None => Select w
  | ErrsClosed => Exit w
  | CtxDone err => Exit (send_err w err)
  end.

(** The outer loop on the events received, in order.  The result
    tells whether the goroutine returned. *)
Fixpoint serve (w : Worker) (evs : list Event) : Flow :=
  match evs with
  | [] => Select w
  | ev :: evs' =>
      match on_event w ev with
      | Select w' => serve w' evs'
      | Exit w' => Exit w'
      | NoFuel => NoFuel
      end
  end.

Definition Stream (evs : list Event) : Flow := serve Worker_init evs.

(** A fragment as the worker sends them. *)
Definition fragment (m : Message) : Prop := MsgRole m = RoleAssistant /\ Content m <> "".

(** What holds of the worker while it waits in [select], and once it returned. *)
Definition waiting (w : Worker) : Prop :=
  Forall fragment (msgChan w) /\ errChan w = [] /\ bytes.unread (buf w) = "".
Definition returned (w : Worker) : Prop :=
  Forall fragment (msgChan w) /\ (length (errChan w) <= 1)%nat.

(** The last byte of [s] is a line feed. *)
Fixpoint ends_with_LF (s : string) : bool :=
  match s with
  | EmptyString => false
  | String c EmptyString => Ascii.eqb c LF
  | String _ s' => ends_with_LF s'
  end.

(** What a consumer of the two channels can see of a run: the
    messages, the errors, and whether the channels are closed. *)
Definition observe (f : Flow) : option (list Message * list error * bool) :=
  match f with
  | Select w => Some (msgChan w, errChan w, false)
  | Exit w => Some (msgChan w, errChan w, true)
  | NoFuel => None
  end.

(** The worker [w] with the buffer holding [s]. *)
Definition holding (w : Worker) (s : string) : Worker := with_buf w {| bytes.unread := s |}.

(** *** The worker, the two channels and the consumer

    [msgChan] has room for 10 messages and [errChan] for one error; a
    send on a full channel blocks until the consumer receives, and the
    deferred calls close both channels when the worker returns.  What
    the worker does with what [select] received does not depend on the
    channels, so its sends are those of [on_event], in their order;
    they are done one at a time, as the message channel has room. *)

Definition msgChan_cap : nat := 10.

(** Where the worker is: waiting in [select]; in the code that follows
    a receive, with the messages it still has to send and what it does
    after them; or returned. *)
Inductive Phase : Type :=
| AtSelect (w : Worker)
| Sending (todo : list Message) (next : Flow)
| Gone.

(** The messages in the buffer of [msgChan], those the consumer has
    received, the errors sent on [errChan], how many times each channel
    was closed, and the error of the context once it is cancelled. *)
Record System : Type :=
  { phase : Phase;
    queue : list Message;
    received : list Message;
    errors : list error;
    msgChan_closes : nat;
    errChan_closes : nat;
    cancelled : option error }.

Definition System_init : System :=
  {| phase := AtSelect Worker_init; queue := []; received := []; errors := [];
     msgChan_closes := 0; errChan_closes := 0; cancelled := None |}.

(** The sends that go through without blocking: what is left to send,
    and the buffer of the channel. *)
Fixpoint push (todo : list Message) (q : list Message) : list Message * list Message :=
  match todo with
  | [] => ([], q)
  | m :: todo' =>
      if (length q <? msgChan_cap)%nat then push todo' (q ++ [m]) else (todo, q)
  end.

Definition sent_by (f : Flow) : list Message :=
  match f with
  | Select w | Exit w => msgChan w
  | NoFuel => []
  end.

(** The worker runs until it blocks in a send, is back at [select], or
    returns; on return the error, if any, is sent (the error channel
    is in [errChan] of the worker: it has room, see [sound]) and the
    deferred calls close the two channels.  [NoFuel] does not come up:
    [drain] gives the inner loop fuel enough. *)
Definition advance (s : System) : System :=
  match phase s with
  | Sending todo next =>
      let '(todo', q) := push todo (queue s) in
      match todo', next with
      | _ :: _, _ | [], NoFuel =>
          {| phase := Sending todo' next; queue := q; received := received s;
             errors := errors s; msgChan_closes := msgChan_closes s;
             errChan_closes := errChan_closes s; cancelled := cancelled s |}
      | [], Select w =>
          {| phase := AtSelect w; queue := q; received := received s;
             errors := errors s; msgChan_closes := msgChan_closes s;
             errChan_closes := errChan_closes s; cancelled := cancelled s |}
      | [], Exit w =>
          {| phase := Gone; queue := q; received := received s;
             errors := errChan w; msgChan_closes := S (msgChan_closes s);
             errChan_closes := S (errChan_closes s); cancelled := cancelled s |}
      end
  | AtSelect _ | Gone => s
  end.

(** What can happen: the caller cancels the context; [select]
    receives something (a chunk, a closing or an error of the
    transport, or the end of the context); the consumer receives a
    message. *)
Inductive Action : Type :=
| Cancel (e : error)
| Deliver (ev : Event)
| Receive.

(** [select] can take the case of the context only once the context
    is cancelled, and then with its error. *)
Definition deliverable (s : System) (ev : Event) : bool :=
  match ev with
  | CtxDone e => bool_decide (cancelled s = Some e)
  | _ => true
  end.

(** One action; [None] when it cannot happen in this state.  Nothing
    is delivered to a worker that is not at [select]. *)
Definition step (s : System) (a : Action) : option System :=
  match a with
  | Cancel e =>
      Some {| phase := phase s; queue := queue s; received := received s;
              errors := errors s; msgChan_closes := msgChan_closes s;
              errChan_closes := errChan_closes s;
              cancelled := match cancelled s with
                           | Some e0 => Some e0
                           | None => Some e
                           end |}
  | Deliver ev =>
      match phase s with
      | AtSelect w =>
          if deliverable s ev then
            let next := on_event w ev in
            Some (advance
                    {| phase := Sending (drop (length (msgChan w)) (sent_by next)) next;
                       queue := queue s; received := received s; errors := errors s;
                       msgChan_closes := msgChan_closes s;
                       errChan_closes := errChan_closes s; cancelled := cancelled s |})
          else None
      | Sending _ _ | Gone => None
      end
  | Receive =>
      match queue s with
      | m :: q =>
          Some (advance
                  {| phase := phase s; queue := q; received := received s ++ [m];
                     errors := errors s; msgChan_closes := msgChan_closes s;
                     errChan_closes := errChan_closes s; cancelled := cancelled s |})
      | [] => None
      end
  end.

Fixpoint exec (s : System) (acts : list Action) : option System :=
  match acts with
  | [] => Some s
  | a :: acts' =>
      match step s a with
      | Some s' => exec s' acts'
      | None => None
      end
  end.

(** What holds of every state the system reaches. *)
Definition sound (s : System) : Prop :=
  (length (queue s) <= msgChan_cap)%nat /\
  match phase s with
  | AtSelect w =>
      waiting w /\ msgChan w = received s ++ queue s /\
      errors s = [] /\ msgChan_closes s = 0%nat /\ errChan_closes s = 0%nat
  | Sending todo next =>
      todo <> [] /\ length (queue s) = msgChan_cap /\
      sent_by next = received s ++ queue s ++ todo /\
      match next with
      | Select w => waiting w
      | Exit w => returned w
      | NoFuel => False
      end /\
      errors s = [] /\ msgChan_closes s = 0%nat /\ errChan_closes s = 0%nat
  | Gone =>
      (length (errors s) <= 1)%nat /\
      msgChan_closes s = 1%nat /\ errChan_closes s = 1%nat
  end.

(** The state before the worker goes on: as [sound], but in [Sending]
    there may be nothing left to send, or room in the channel. *)
Definition ready (s : System) : Prop :=
  (length (queue s) <= msgChan_cap)%nat /\
  match phase s with
  | AtSelect w =>
      waiting w /\ msgChan w = received s ++ queue s /\
      errors s = [] /\ msgChan_closes s = 0%nat /\ errChan_closes s = 0%nat
  | Sending todo next =>
      sent_by next = received s ++ queue s ++ todo /\
      match next with
      | Select w => waiting w
      | Exit w => returned w
      | NoFuel => False
      end /\
      errors s = [] /\ msgChan_closes s = 0%nat /\ errChan_closes s = 0%nat
  | Gone =>
      (length (errors s) <= 1)%nat /\
      msgChan_closes s = 1%nat /\ errChan_closes s = 1%nat
  end.

(** *** The completion request and its response *)

Record QWenUsage : Type :=
  { PromptTokens : Z; CompletionTokens : Z; TotalTokens : Z }.

Record QWenResponse : Type :=
  { RespID : string;
    RespObject : string;
    RespCreated : Z;
    RespModelName : string;
    RespChoices : list QWenChoice;
    Usage : QWenUsage }.

Definition QWenUsage_zero : QWenUsage :=
  {| PromptTokens := 0; CompletionTokens := 0; TotalTokens := 0 |}.
Definition QWenResponse_zero : QWenResponse :=
  {| RespID := ""; RespObject := ""; RespCreated := 0; RespModelName := "";
     RespChoices := []; Usage := QWenUsage_zero |}.

Definition decode_usage_member (cur : QWenUsage) (kv : string * json) : option QWenUsage :=
  let '(k, v) := kv in
  if is_field k "prompt_tokens" then
    n ← decode_int (PromptTokens cur) v;
    Some {| PromptTokens := n; CompletionTokens := CompletionTokens cur;
            TotalTokens := TotalTokens cur |}
  else if is_field k "completion_tokens" then
    n ← decode_int (CompletionTokens cur) v;
    Some {| PromptTokens := PromptTokens cur; CompletionTokens := n;
            TotalTokens := TotalTokens cur |}
  else if is_field k "total_tokens" then
    n ← decode_int (TotalTokens cur) v;
    Some {| PromptTokens := PromptTokens cur; CompletionTokens := CompletionTokens cur;
            TotalTokens := n |}
  else Some cur.

Definition decode_usage (cur : QWenUsage) (j : json) : option QWenUsage :=
  match j with
  | JObject members => decode_members decode_usage_member cur members
  | JNull => Some cur
  | _ => None
  end.

Definition decode_qwen_response_member (cur : QWenResponse) (kv : string * json)
  : option QWenResponse :=
  let '(k, v) := kv in
  if is_field k "id" then
    s ← decode_string (RespID cur) v;
    Some {| RespID := s; RespObject := RespObject cur; RespCreated := RespCreated cur;
            RespModelName := RespModelName cur; RespChoices := RespChoices cur;
            Usage := Usage cur |}
  else if is_field k "object" then
    s ← decode_string (RespObject cur) v;
    Some {| RespID := RespID cur; RespObject := s; RespCreated := RespCreated cur;
            RespModelName := RespModelName cur; RespChoices := RespChoices cur;
            Usage := Usage cur |}
  else if is_field k "created" then
    n ← decode_int (RespCreated cur) v;
    Some {| RespID := RespID cur; RespObject := RespObject cur; RespCreated := n;
            RespModelName := RespModelName cur; RespChoices := RespChoices cur;
            Usage := Usage cur |}
  else if is_field k "model" then
    s ← decode_string (RespModelName cur) v;
    Some {| RespID := RespID cur; RespObject := RespObject cur;
            RespCreated := RespCreated cur; RespModelName := s;
            RespChoices := RespChoices cur; Usage := Usage cur |}
  else if is_field k "choices" then
    cs ← decode_choices (RespChoices cur) v;
    Some {| RespID := RespID cur; RespObject := RespObject cur;
            RespCreated := RespCreated cur; RespModelName := RespModelName cur;
            RespChoices := cs; Usage := Usage cur |}
  else if is_field k "usage" then
    u ← decode_usage (Usage cur) v;
    Some {| RespID := RespID cur; RespObject := RespObject cur;
            RespCreated := RespCreated cur; RespModelName := RespModelName cur;
            RespChoices := RespChoices cur; Usage := u |}
  else Some cur.

(** [json.Unmarshal(httpResp.Body, &qwenResp)] for a zero [qwenResp];
    [None] when it returns an error. *)
Definition Unmarshal_response (body : string) : option QWenResponse :=
  match jsonparse.parse body with
  | Some (JObject members) =>
      decode_members decode_qwen_response_member QWenResponse_zero members
  | Some JNull => Some QWenResponse_zero
  | _ => None
  end.

(** One entry of the [tools] array of a request: the map with the keys
    [type] and [function], the latter a map with the keys [name],
    [description] and [parameters]. *)
Record QWenTool : Type :=
  { tool_type : string;
    function_name : string;
    function_description : string;
    function_parameters : list (string * tool.ParameterInfo) }.

Record QWenRequest : Type :=
  { ReqModel : string;
    ReqMessages : list QWenMessage;
    ReqTools : list QWenTool;
    ReqStream : bool }.

Definition reqMessages (messages : list Message) : list QWenMessage :=
  map (fun msg => {| QRole := Role_String (MsgRole msg); QContent := Content msg |}) messages.

Definition qwenTools (tools : list tool.ToolInfo) : list QWenTool :=
  map (fun toolInfo => {| tool_type := "function";
                          function_name := tool.Name toolInfo;
                          function_description := tool.Desc toolInfo;
                          function_parameters := tool.Parameters toolInfo |}) tools.

(** The request both [Generate] and [Stream] build. *)
Definition build_request (model : string) (messages : list Message)
    (tools : list tool.ToolInfo) (stream : bool) : QWenRequest :=
  {| ReqModel := model;
     ReqMessages := reqMessages messages;
     ReqTools := if (0 <? length tools)%nat then qwenTools tools else [];
     ReqStream := stream |}.

(** [%d] of an integer. *)
Definition format_int (n : Z) : string := DecimalString.NilZero.string_of_int (Z.to_int n).

Record HTTPResponse : Type := { Body : string; StatusCode : Z }.

Section Clients.

(** [Custom] stands for the implementations of [IHTTPClient] other
    than [HTTPClient], [Net] for the state of the network, [Send] for
    the exchange [HTTPClient.Send] performs with the method POST (a
    response or an error), and [json_error] for the text of the error
    [json.Unmarshal] returns on a body. *)
Context {Custom Net : Type}.

Inductive IHTTPClient : Type :=
| PackageClient (c : httpclient.HTTPClient)
| CustomClient (c : Custom).

Variable Send : IHTTPClient -> Net -> QWenRequest -> (HTTPResponse + error) * Net.
Variable json_error : string -> error.

Record QWenModelClient : Type :=
  { BaseUrl : string;
    AuthToken : string;
    Timeout : httpclient.Duration;
    Path : string;
    HTTPClient : option IHTTPClient }.

(** An option changes the client and may return an error. *)
Definition Option : Type := QWenModelClient -> QWenModelClient * option error.

Definition WithBaseUrl (baseUrl : string) : Option :=
  fun c => ({| BaseUrl := baseUrl; AuthToken := AuthToken c; Timeout := Timeout c;
               Path := Path c; HTTPClient := HTTPClient c |}, None).

Definition WithTimeout (timeout : httpclient.Duration) : Option :=
  fun c => ({| BaseUrl := BaseUrl c; AuthToken := AuthToken c; Timeout := timeout;
               Path := Path c; HTTPClient := HTTPClient c |}, None).

Definition WithHTTPClient (httpClient : option IHTTPClient) : Option :=
  fun c => ({| BaseUrl := BaseUrl c; AuthToken := AuthToken c; Timeout := Timeout c;
               Path := Path c; HTTPClient := httpClient |}, None).

(** The options in order, up to the first that returns an error. *)
Fixpoint run_options (c : QWenModelClient) (opts : list Option) : QWenModelClient + error :=
  match opts with
  | [] => inl c
  | opt :: opts' =>
      match opt c with
      | (_, Some err) => inr err
      | (c', None) => run_options c' opts'
      end
  end.

Definition default_base : string := "https://dashscope.aliyuncs.com/compatible-mode/v1".

Definition NewQWenModelClient (authToken : string) (opts : list Option)
  : option QWenModelClient * option error :=
  if String.eqb authToken "" then (None, Some "authToken is required")
  else
    let client := {| BaseUrl := ""; AuthToken := authToken;
                     Timeout := 5 * httpclient.Minute;
                     Path := "chat/completions"; HTTPClient := None |} in
    match run_options client opts with
    | inr err => (None, Some err)
    | inl client =>
        match HTTPClient client with
        | Some _ => (Some client, None)
        | None =>
            let base := if String.eqb (BaseUrl client) "" then default_base
                        else BaseUrl client in
            let header : httpclient.HTTPHeader :=
              {[ "Content-Type" := "application/json";
                 "Accept" := "application/json";
                 "Authorization" := "Bearer " +:+ AuthToken client ]} in
            (Some {| BaseUrl := BaseUrl client; AuthToken := AuthToken client;
                     Timeout := Timeout client; Path := Path client;
                     HTTPClient :=
                       Some (PackageClient
                               (httpclient.NewHTTPClient base (Path client)
                                  [httpclient.WithHeader (Some header);
                                   httpclient.WithTimeout (Timeout client)])) |},
             None)
        end
    end.

(** [QWenModelClient.Generate]; [None] stands for the panic of a call
    through a [nil] [HTTPClient]. *)
Definition QWen_Generate (c : QWenModelClient) (net : Net) (model : string)
    (messages : list Message) (tools : list tool.ToolInfo)
  : option (agent.ModelReply * Net) :=
  let qwenReq := build_request model messages tools false in
  match HTTPClient c with
  | None => None
  | Some h =>
      let '(sent, net) := Send h net qwenReq in
      Some
        (match sent with
         | inr err => (None, Some ("failed to send request: " +:+ err))
         | inl httpResp =>
             if negb (StatusCode httpResp =? 200) then
               (None, Some ("API request failed with status "
                            +:+ format_int (StatusCode httpResp) +:+ ": " +:+ Body httpResp))
             else
               match Unmarshal_response (Body httpResp) with
               | None => (None, Some ("failed to decode response: "
                                      +:+ json_error (Body httpResp)))
               | Some qwenResp =>
                   match RespChoices qwenResp with
                   | [] => (None, Some "no choices returned from API")
                   | choice :: _ =>
                       (Some {| MsgRole := RoleAssistant;
                                Content := QContent (ChoiceMessage choice) |}, None)
                   end
               end
         end, net)
  end.

(** *** [ChatModel]: the model the agent is given

    The client of a [ChatModel] is a [ChatModelClient]; the
    implementation of this interface in the repository is
    [QWenModelClient].  A [nil] client is [None]. *)
Record ChatModelConfig : Type :=
  { Client : option QWenModelClient;
    APIKey : string;
    Model : string;
    ConfBaseUrl : string;
    ConfTimeout : httpclient.Duration }.

Record ChatModel : Type :=
  { conf : ChatModelConfig;
    client : option QWenModelClient;
    tools : list tool.ToolInfo }.

Definition ChatModelOption : Type := ChatModelConfig -> ChatModelConfig.

(** [strings.HasSuffix(s, "/")]. *)
Definition ends_with_slash (s : string) : bool :=
  httpclient.is_slash (httpclient.last_byte s).

(** [NewChatModel]: the model or [nil], the error, and the
    configuration the caller's pointer refers to afterwards. *)
Definition NewChatModel (config : ChatModelConfig) (opts : list ChatModelOption)
  : option ChatModel * option error * ChatModelConfig :=
  let config := fold_left (fun config opt => opt config) opts config in
  match Client config with
  | None => (None, Some "client is required", config)
  | Some cl =>
      if (String.length (Model config) =? 0)%nat then
        (None, Some "model is required", config)
      else if (String.length (APIKey config) =? 0)%nat then
        (None, Some "api key is required", config)
      else
        let timeout := if ConfTimeout config =? 0 then httpclient.Minute
                       else ConfTimeout config in
        let base := if (0 <? String.length (ConfBaseUrl config))%nat
                       && negb (ends_with_slash (ConfBaseUrl config))
                    then ConfBaseUrl config +:+ "/" else ConfBaseUrl config in
        let config := {| Client := Client config; APIKey := APIKey config;
                         Model := Model config; ConfBaseUrl := base;
                         ConfTimeout := timeout |} in
        (Some {| conf := config; client := Client config; tools := [] |}, None, config)
  end.

Definition ChatModel_BindTools (c : ChatModel) (infos : list tool.ToolInfo) : ChatModel :=
  {| conf := conf c; client := client c; tools := infos |}.

(** [ChatModel.Generate]; [None] for a panic (a [nil] client, or a
    client without an [HTTPClient]). *)
Definition ChatModel_Generate (c : ChatModel) (net : Net) (history : list Message)
  : option (agent.ModelReply * Net) :=
  match client c with
  | None => None
  | Some cl =>
      match QWen_Generate cl net (Model (conf c)) history (tools c) with
      | None => None
      | Some ((msg, Some err), net) => Some ((None, Some err), net)
      | Some ((msg, None), net) => Some ((msg, None), net)
      end
  end.

(** The [ChatModel] as the agent uses it: the state is the model
    object and the network.  Where the Go code would panic the reply
    has neither a message nor an error; the properties below are about
    models built by the constructors, which do not panic. *)
Definition as_agent_model : @agent.ChatModel (ChatModel * Net) :=
  {| agent.ModelGenerate := fun st history =>
       match ChatModel_Generate st.1 st.2 history with
       | Some (reply, net) => (reply, (st.1, net))
       | None => ((None, None), st)
       end;
     agent.BindTools := fun st infos => (ChatModel_BindTools st.1 infos, st.2) |}.

End Clients.

End chatmodel.

(** ** package tool: the calculator *)

Module calculator.
Import gojson tool.

(** What [Execute] returns: [nil], or the map with the keys [result]
    and [expression]; the results 0, 4 and 12 are whole floats. *)
Inductive CalcValue : Type :=
| CalcNil
| CalcMap (result : Z) (expression : string).

Definition Info : ToolInfo :=
  {| Name := "calculator";
     Desc := "执行数学计算";
     Parameters :=
       [("expression",
          {| PName := "expression"; PType := String_;
             PDesc := "数学表达式，如: 2+3*4"; Required := true;
             ElemInfo := None; SubInfo := [] |})] |}.

Definition safeEval (expr : string) : Z :=
  if String.eqb expr "2+2" then 4
  else if String.eqb expr "3*4" then 12
  else 0.

Definition Execute (params : gomap) : CalcValue * option error :=
  match as_string (index params "expression") with
  | None => (CalcNil, Some "表达式参数错误")
  | Some expression => (CalcMap (safeEval expression) expression, None)
  end.

Definition CalculatorTool : @agent.Tool CalcValue :=
  {| agent.Info := Info; agent.Execute := Execute |}.

End calculator.

(** ** Test doubles *)

Module fixture.
Import gojson tool agent.

(** Tool results: a boolean, which [json.Marshal] renders, and the
    float [+Inf], on which it returns an error. *)
Inductive TestValue : Type := VBool (b : bool) | VPosInf.

Definition marshal (v : TestValue) : option string :=
  match v with
  | VBool true => Some "true"
  | VBool false => Some "false"
  | VPosInf => None
  end.

Definition fmt (v : TestValue) : string :=
  match v with
  | VBool true => "true"
  | VBool false => "false"
  | VPosInf => "+Inf"
  end.

(** A backend that plays a script of replies, one per call, and
    replies with neither a message nor an error after the script. *)
Definition scripted : @ChatModel (list ModelReply) :=
  {| ModelGenerate := fun script _ =>
       match script with
       | reply :: script' => (reply, script')
       | [] => ((None, None), [])
       end;
     BindTools := fun script _ => script |}.

(** A backend that gives the same reply to every call. *)
Definition constant (reply : ModelReply) : @ChatModel unit :=
  {| ModelGenerate := fun s _ => (reply, s);
     BindTools := fun s _ => s |}.

(** A tool that ignores its arguments. *)
Definition stub (name : string) (out : TestValue * option error) : @Tool TestValue :=
  {| Info := {| Name := name; Desc := ""; Parameters := [] |};
     Execute := fun _ => out |}.

(** The tool-role message that asks for the tool [name]. *)
Definition request (name : string) : Message :=
  {| MsgRole := RoleTool; Content := dq "{'tool':'" +:+ name +:+ dq "'}" |}.

Definition user (content : string) : Message :=
  {| MsgRole := RoleUser; Content := content |}.

Definition world {S : Type} (s : S) : @World S :=
  {| model_state := s; calls := [] |}.

Definition agent_of {S : Type} (maxStep : Z) (m : option (@ChatModel S))
    (tools : list (@Tool TestValue)) : @ReactAgent TestValue S :=
  {| state := {| messages := [] |};
     conf := {| MaxStep := maxStep; Model := m; Tools := tools |} |}.

Definition TAB : string := String "009" EmptyString.

(** A calculator stub that succeeds, and a tool that fails with a
    message holding a tab. *)
Definition calculator : @Tool TestValue := stub "calculator" (VBool true, None).
Definition broken : @Tool TestValue :=
  stub "broken" (VPosInf, Some ("bad" +:+ TAB +:+ "input")).

Definition hello : list Message := [user "What is 2 + 2?"].

Definition tools : list (@Tool TestValue) := [calculator; broken].

(** What the loop appends after the calculator stub ran. *)
Definition calculated : list Message :=
  [request "calculator"; {| MsgRole := RoleTool; Content := "true" |}].

Definition answer : Message := assistant "4".

(** A script that asks for the calculator and then for a tool that
    is not registered, and one that asks for the calculator and then
    answers. *)
Definition script_unknown : list ModelReply :=
  [(Some (request "calculator"), None); (Some (request "x"), None);
   (Some answer, None)].
Definition script_answer : list ModelReply :=
  [(Some (request "calculator"), None); (Some answer, None);
   (Some (request "calculator"), None)].

Definition agent8 : @ReactAgent TestValue (list ModelReply) :=
  agent_of 8 (Some scripted) tools.

(** A backend that always asks for the calculator, one that always
    asks for the failing tool. *)
Definition always_calculator : @ChatModel unit :=
  constant (Some (request "calculator"), None).
Definition always_broken : @ChatModel unit :=
  constant (Some (request "broken"), None).

Definition conf_negative : @ReactAgentConfig TestValue unit :=
  {| MaxStep := -3; Model := Some always_calculator; Tools := tools |}.
Definition conf_no_model : @ReactAgentConfig TestValue unit :=
  {| MaxStep := -1; Model := None; Tools := tools |}.

(** The two chunks of a frame cut inside its text, and the line feed. *)
Definition NL : string := String chatmodel.LF EmptyString.
Definition chunk1 : string := dq "data: {'choices':[{'delta':{'content':'Hel".
Definition chunk2 : string := dq "lo'}}]}" +:+ NL +:+ NL.

(** Scripts that end a turn without an answer, and a backend that
    echoes a user message. *)
Definition garbled : Message := {| MsgRole := RoleTool; Content := "not json" |}.
Definition script_invalid : list ModelReply := [(Some garbled, None)].
Definition always_echo : @ChatModel unit := constant (Some (user "again"), None).

(** One whole frame in one chunk, and the end-of-stream line. *)
Definition frame : string := chunk1 +:+ chunk2.
Definition done : string := "data: [DONE]" +:+ NL.
Definition after_frame : chatmodel.Worker :=
  {| chatmodel.buf := {| bytes.unread := "" |};
     chatmodel.msgChan := [{| MsgRole := RoleAssistant; Content := "Hello" |}];
     chatmodel.errChan := [] |}.

(** The end-of-stream line cut in two chunks. *)
Definition done_head : string := "data: [DO".
Definition done_tail : string := "NE]" +:+ NL.

(** The line of the frame, and the event it decodes to. *)
Definition frame_data : string := dq "{'choices':[{'delta':{'content':'Hello'}}]}".
Definition hello_choice : chatmodel.QWenChoice :=
  {| chatmodel.Index := 0;
     chatmodel.ChoiceMessage := chatmodel.QWenMessage_zero;
     chatmodel.Delta := {| chatmodel.QRole := ""; chatmodel.QContent := "Hello" |};
     chatmodel.FinishReason := "" |}.
Definition hello_event : chatmodel.QWenStreamResponse :=
  {| chatmodel.ID := ""; chatmodel.Object := ""; chatmodel.Created := 0;
     chatmodel.RespModel := ""; chatmodel.Choices := [hello_choice] |}.

(** Eleven frames in one chunk: one more than the message channel holds. *)
Definition eleven_frames : string :=
  frame +:+ frame +:+ frame +:+ frame +:+ frame +:+ frame +:+
  frame +:+ frame +:+ frame +:+ frame +:+ frame.

(** A fragment, the system after one frame that the consumer has not
    received yet, and the system after eleven frames in one chunk and
    a cancellation: the worker is in the send of the eleventh. *)
Definition hello_fragment : Message := {| MsgRole := RoleAssistant; Content := "Hello" |}.
Definition blocked_system : chatmodel.System :=
  {| chatmodel.phase :=
       chatmodel.Sending [hello_fragment]
         (chatmodel.Select
            {| chatmodel.buf := {| bytes.unread := "" |};
               chatmodel.msgChan := List.repeat hello_fragment 11;
               chatmodel.errChan := [] |});
     chatmodel.queue := List.repeat hello_fragment 10; chatmodel.received := [];
     chatmodel.errors := []; chatmodel.msgChan_closes := 0;
     chatmodel.errChan_closes := 0; chatmodel.cancelled := Some "context canceled" |}.

(** A network that answers every request with the same completion. *)
Definition completion : chatmodel.HTTPResponse :=
  {| chatmodel.Body := dq "{'choices':[{'message':{'role':'assistant','content':'4'}}]}";
     chatmodel.StatusCode := 200 |}.
Definition send (h : @chatmodel.IHTTPClient Empty_set) (net : unit)
    (req : chatmodel.QWenRequest) : (chatmodel.HTTPResponse + error) * unit :=
  (inl completion, net).
Definition json_error (body : string) : error := "invalid character".

Definition http : httpclient.HTTPClient := httpclient.NewHTTPClient "https://example.test/v1" "chat/completions" [].
Definition qwen : @chatmodel.QWenModelClient Empty_set :=
  {| chatmodel.BaseUrl := "https://example.test/v1"; chatmodel.AuthToken := "sk-test";
     chatmodel.Timeout := httpclient.Minute; chatmodel.Path := "chat/completions";
     chatmodel.HTTPClient := Some (chatmodel.PackageClient http) |}.
Definition chat : @chatmodel.ChatModel Empty_set :=
  {| chatmodel.conf := {| chatmodel.Client := Some qwen; chatmodel.APIKey := "sk-test";
                          chatmodel.Model := "qwen3"; chatmodel.ConfBaseUrl := "";
                          chatmodel.ConfTimeout := httpclient.Minute |};
     chatmodel.client := Some qwen;
     chatmodel.tools := [] |}.
Definition qwen_agent : @ReactAgent TestValue (@chatmodel.ChatModel Empty_set * unit) :=
  agent_of 8 (Some (chatmodel.as_agent_model send json_error)) tools.

(** The calculator of the repository with a serializer that always
    fails, and a request for it whose expression is a number. *)
Definition no_marshal (v : calculator.CalcValue) : option string := None.
Definition no_fmt (v : calculator.CalcValue) : string := "".
Definition bad_expression : Message :=
  {| MsgRole := RoleTool;
     Content := dq "{'tool':'calculator','arguments':{'expression':5}}" |}.

End fixture.

(** * Properties *)

(** ** The parsing rule and the escaping *)

Module agent_facts.
Import gojson tool agent.

Lemma parseToolCall_refines content : parseToolCall content = parseToolCall_spec content.
Proof.
  unfold parseToolCall, parseToolCall_spec, name_aliases, args_aliases.
  destruct (Unmarshal_map content) as [raw|]; [|reflexivity].
  cbn [map first_some nonempty index].
  destruct (as_string (index raw "tool")) as [t|];
    destruct (as_string (index raw "name")) as [n|];
    destruct (as_map (index raw "function")) as [fn|];
    try destruct (as_string (fn !! "name")) as [f|];
    try destruct (String.eqb_spec t ""); try destruct (String.eqb_spec n "");
    try destruct (String.eqb_spec f ""); subst; cbn;
    repeat match goal with
      | |- context [String.eqb ?x ?y] => destruct (String.eqb_spec x y); try congruence; cbn
      end;
    destruct (as_map (index raw "arguments")); destruct (as_map (index raw "args"));
    destruct (as_map (index raw "input")); reflexivity.
Qed.

Lemma first_some_None {A} (l : list (option A)) :
  first_some l = None <-> Forall (fun o => o = None) l.
Proof.
  induction l as [|[a|] l IH]; cbn.
  - split; auto.
  - split; [discriminate|]. intros H. inversion H; discriminate.
  - rewrite IH. split; [intros; constructor; auto|]. intros H; inversion H; auto.
Qed.

Lemma parseToolCall_ok_name content call :
  parseToolCall content = (call, true) -> CallName call <> "".
Proof.
  rewrite parseToolCall_refines. unfold parseToolCall_spec.
  destruct (Unmarshal_map content) as [raw|]; [|discriminate].
  destruct (first_some _) as [name|] eqn:E; [|discriminate].
  intros [= <-]. cbn.
  revert E. generalize (name_aliases raw). intros l.
  induction l as [|[s|] l IH]; cbn; try discriminate; auto.
  destruct (String.eqb_spec s ""); cbn; auto. intros [= <-]. assumption.
Qed.
End agent_facts.

(** ** The loop of [Generate] *)

Module loop_facts.
Import gojson tool agent.

Section Loop.
Context {Value : Type} (json_Marshal : Value -> option string) (fmt_v : Value -> string).
Context {MState : Type}.
#[local] Abbreviation Tool := (@Tool Value).
#[local] Abbreviation ChatModel := (@ChatModel MState).
#[local] Abbreviation World := (@World MState).
#[local] Abbreviation react := (react json_Marshal fmt_v).
#[local] Abbreviation loop := (loop json_Marshal fmt_v).
#[local] Abbreviation Generate := (Generate json_Marshal fmt_v).
#[local] Abbreviation ReactAgent := (@ReactAgent Value MState).

Lemma react_return_role (tools : list Tool) msgs reply r msgs' :
  react tools msgs reply = Return r msgs' -> MsgRole (res_msg r) = RoleAssistant.
Proof.
  unfold react. destruct reply as [[msg|] [err|]]; try (intros [= <- _]; reflexivity).
  destruct (Z.eqb_spec (MsgRole msg) RoleTool) as [Ht|Ht].
  - destruct (parseToolCall (Content msg)) as [call ok].
    destruct (negb ok || String.eqb (CallName call) ""); [intros [= <- _]; reflexivity|].
    destruct (select_tool tools (CallName call)) as [t|]; [|intros [= <- _]; reflexivity].
    destruct (Execute t (Args call)). discriminate.
  - destruct (Z.eqb_spec (MsgRole msg) RoleAssistant) as [Ha|Ha]; [|discriminate].
    intros [= <- _]. exact Ha.
Qed.

Lemma loop_role n (m : ChatModel) (tools : list Tool) :
  forall msgs (w : World), MsgRole (res_msg (loop n m tools msgs w).1.1) = RoleAssistant.
Proof.
  induction n as [|n IH]; intros msgs w; cbn [agent.loop]; [reflexivity|].
  unfold call_model. destruct (ModelGenerate m (model_state w) msgs) as [reply s].
  destruct (react tools msgs reply) as [r msgs'|msgs'] eqn:E; [|apply IH].
  cbn. eapply react_return_role; eassumption.
Qed.

(** The calls made by the loop: at most [n]; and a reply on which
    the body returns is the last one and decides the result. *)
Lemma loop_calls n (m : ChatModel) (tools : list Tool) :
  forall msgs (w : World),
    exists new,
      calls (loop n m tools msgs w).2 = calls w ++ new /\
      (length new <= n)%nat /\
      forall k h reply r hm,
        new !! k = Some (h, reply) ->
        react tools h reply = Return r hm ->
        (loop n m tools msgs w).1 = (r, hm) /\ length new = S k.
Proof.
  induction n as [|n IH]; intros msgs w; cbn [agent.loop].
  - exists []. cbn. rewrite app_nil_r. split; [reflexivity|]. split; [lia|].
    intros [|k] ? ? ? ? Hk; discriminate.
  - unfold call_model. destruct (ModelGenerate m (model_state w) msgs) as [reply s].
    destruct (react tools msgs reply) as [r msgs'|msgs'] eqn:E.
    + exists [(msgs, reply)]. cbn. split; [reflexivity|]. split; [lia|].
      intros [|k] h reply' r' hm Hk Hr; cbn in Hk; [|destruct k; discriminate].
      injection Hk as <- <-. rewrite E in Hr. injection Hr as <- <-. auto.
    + destruct (IH msgs' {| model_state := s; calls := calls w ++ [(msgs, reply)] |})
        as (new & Hc & Hl & Hk).
      exists ((msgs, reply) :: new). cbn in Hc. rewrite Hc, <- app_assoc. cbn.
      split; [reflexivity|]. split; [lia|].
      intros [|k] h reply' r' hm Hk' Hr; cbn in Hk'.
      * injection Hk' as <- <-. congruence.
      * destruct (Hk _ _ _ _ _ Hk' Hr) as [H1 H2]. split; [exact H1|lia].
Qed.

Lemma made_app (w w' : World) new : calls w' = calls w ++ new -> made w w' = new.
Proof. unfold made. intros ->. by rewrite drop_app_length. Qed.

Lemma Generate_calls (r : ReactAgent) (w : World) history :
  exists new,
    calls (Generate r w history).2 = calls w ++ new /\
    (length new <= Z.to_nat (MaxStep (conf r)))%nat /\
    forall k h reply res hm,
      new !! k = Some (h, reply) ->
      react (Tools (conf r)) h reply = Return res hm ->
      (Generate r w history).1.1 = res /\
      messages (state (Generate r w history).1.2) = hm /\
      length new = S k.
Proof.
  unfold agent.Generate. destruct (Model (conf r)) as [m|].
  - destruct (loop_calls (Z.to_nat (MaxStep (conf r))) m (Tools (conf r))
                (messages (state r) ++ history) w) as (new & Hc & Hl & Hk).
    destruct (loop _ _ _ _ _) as [[res msgs'] w'] eqn:E. cbn in *.
    exists new. split; [exact Hc|]. split; [exact Hl|].
    intros k h reply res' hm Hn Hr. destruct (Hk _ _ _ _ _ Hn Hr) as [[= -> ->] H2]. auto.
  - exists []. cbn. rewrite app_nil_r. split; [reflexivity|]. split; [lia|].
    intros [|k] ? ? ? ? Hn; discriminate.
Qed.

Lemma react_registered (tools : list Tool) msgs msg call t :
  MsgRole msg = RoleTool ->
  parseToolCall (Content msg) = (call, true) ->
  select_tool tools (CallName call) = Some t ->
  react tools msgs (Some msg, None) =
    Continue (msgs ++ [msg; {| MsgRole := RoleTool;
                               Content := tool_content json_Marshal fmt_v
                                            (Execute t (Args call)) |}]).
Proof.
  intros Hrole Hparse Hsel. unfold agent.react. rewrite Hrole, Hparse.
  apply agent_facts.parseToolCall_ok_name in Hparse.
  destruct (String.eqb_spec (CallName call) ""); [contradiction|]. cbn.
  rewrite Hsel. unfold tool_content. destruct (Execute t (Args call)) as [v [e|]];
    rewrite <- app_assoc; reflexivity.
Qed.


Lemma Generate_exhausted (r : ReactAgent) (w : World) history m :
  Model (conf r) = Some m ->
  MaxStep (conf r) <= 0 ->
  Generate r w history =
    ({| res_msg := assistant "max steps reached"; res_err := None;
        res_state := Some {| messages := messages (state r) ++ history |} |},
     {| state := {| messages := messages (state r) ++ history |}; conf := conf r |},
     w).
Proof.
  intros Hm Hn. unfold agent.Generate. rewrite Hm.
  replace (Z.to_nat (MaxStep (conf r))) with O by lia. reflexivity.
Qed.

End Loop.

Lemma escapeString_cons c s :
  escapeString (String c s) = escape_byte c +:+ escapeString s.
Proof.
  unfold escapeString, escape_byte. cbn [strings.ReplaceAll].
  destruct (Ascii.eqb_spec c "\"%char) as [->|Hb]; [reflexivity|].
  cbn [strings.ReplaceAll].
  destruct (Ascii.eqb_spec c jsonlex.dquote) as [->|Hq]; [reflexivity|].
  cbn [strings.ReplaceAll].
  destruct (Ascii.eqb_spec c "010"%char) as [->|Hn]; reflexivity.
Qed.

Lemma escapeString_bytes s : escapeString s = escape_bytes s.
Proof.
  induction s as [|c s IH]; [reflexivity|].
  rewrite escapeString_cons, IH. reflexivity.
Qed.

End loop_facts.

(** ** The claims on the agent *)

Section AgentClaims.
Import gojson tool agent.
Context {Value : Type} (json_Marshal : Value -> option string) (fmt_v : Value -> string).
Context {MState : Type}.
#[local] Abbreviation Generate := (Generate json_Marshal fmt_v (MState := MState)).
#[local] Abbreviation Generates := (Generates json_Marshal fmt_v (MState := MState)).
#[local] Abbreviation loop := (loop json_Marshal fmt_v (MState := MState)).
#[local] Abbreviation tool_content := (tool_content json_Marshal fmt_v).

(** C1, as amended.  When the reply to a call of the model is a
  tool-role message whose content parses to a name that no registered
  tool has, that call is the last one of the invocation, whatever is
  left of the step budget, and [Generate] returns the assistant
  message "tool '<name>' not found" with a nil error and a nil state;
  the history ends with the request. *)
Theorem Generate_tool_not_found r w history k h msg call :
made w (Generate r w history).2 !! k = Some (h, (Some msg, None)) ->
MsgRole msg = RoleTool ->
parseToolCall (Content msg) = (call, true) ->
select_tool (Tools (conf r)) (CallName call) = None ->
(Generate r w history).1.1 =
  {| res_msg := assistant ("tool '" +:+ CallName call +:+ "' not found");
     res_err := None; res_state := None |} /\
length (made w (Generate r w history).2) = S k /\
messages (state (Generate r w history).1.2) = h ++ [msg].
Proof.
intros Hk Hrole Hparse Hsel.
destruct (loop_facts.Generate_calls json_Marshal fmt_v r w history) as (new & Hc & _ & Hn).
rewrite (loop_facts.made_app _ _ _ Hc) in *.
assert (Hr : react json_Marshal fmt_v (Tools (conf r)) h (Some msg, None) =
             Return {| res_msg := assistant ("tool '" +:+ CallName call +:+ "' not found");
                       res_err := None; res_state := None |} (h ++ [msg])).
{ unfold react. rewrite Hrole, Hparse.
  apply agent_facts.parseToolCall_ok_name in Hparse.
  destruct (String.eqb_spec (CallName call) ""); [contradiction|]. cbn.
  rewrite Hsel. reflexivity. }
destruct (Hn _ _ _ _ _ Hk Hr) as (H1 & H2 & H3). auto.
Qed.


(** C5.  With a step budget N >= 1, an invocation of [Generate] calls
  the model at most N times; and when the reply to one of these calls
  is an assistant-role message (with a nil error), that call is the
  last one, the message is appended to the history and [Generate]
  returns this message with a nil error. *)
Theorem Generate_assistant_answer r w history N :
1 <= N ->
MaxStep (conf r) = N ->
Z.of_nat (length (made w (Generate r w history).2)) <= N /\
forall k h msg,
  made w (Generate r w history).2 !! k = Some (h, (Some msg, None)) ->
  MsgRole msg = RoleAssistant ->
  (Generate r w history).1.1 = {| res_msg := msg; res_err := None; res_state := None |} /\
  messages (state (Generate r w history).1.2) = h ++ [msg] /\
  length (made w (Generate r w history).2) = S k.
Proof.
intros HN HMax.
destruct (loop_facts.Generate_calls json_Marshal fmt_v r w history) as (new & Hc & Hl & Hn).
rewrite (loop_facts.made_app _ _ _ Hc). split; [lia|].
intros k h msg Hk Hrole.
assert (Hr : react json_Marshal fmt_v (Tools (conf r)) h (Some msg, None) =
             Return {| res_msg := msg; res_err := None; res_state := None |} (h ++ [msg])).
{ unfold react. rewrite Hrole. reflexivity. }
destruct (Hn _ _ _ _ _ Hk Hr) as (H1 & H2 & H3). auto.
Qed.

(** C6, as amended.  When the model asks for a registered tool, the
  loop goes on to its next iteration whether the tool fails or not,
  with the request and a tool-role message holding the outcome
  appended to the history.  For a failure the content is
  {"error":"<message>"} where, in the message, each backslash, double
  quote and line feed is escaped and every other byte is copied as it
  is; for a success it is the serialized result, or {"result":"<%v of
  the result>"} when the serialization fails. *)
Theorem tool_outcome_fed_back n m tools msgs w msg call t s :
ModelGenerate m (model_state w) msgs = ((Some msg, None), s) ->
MsgRole msg = RoleTool ->
parseToolCall (Content msg) = (call, true) ->
select_tool tools (CallName call) = Some t ->
loop (S n) m tools msgs w =
  loop n m tools
    (msgs ++ [msg; {| MsgRole := RoleTool;
                      Content := tool_content (Execute t (Args call)) |}])
    {| model_state := s; calls := calls w ++ [(msgs, (Some msg, None))] |} /\
(forall v e, tool_content (v, Some e) = dq "{'error':'" +:+ escape_bytes e +:+ dq "'}") /\
(forall v b, json_Marshal v = Some b -> tool_content (v, None) = b) /\
(forall v, json_Marshal v = None ->
           tool_content (v, None) = dq "{'result':'" +:+ fmt_v v +:+ dq "'}").
Proof.
intros Hgen Hrole Hparse Hsel. split; [|split; [|split]].
- cbn [agent.loop]. unfold call_model. rewrite Hgen.
  rewrite (loop_facts.react_registered json_Marshal fmt_v tools msgs msg call t
             Hrole Hparse Hsel). reflexivity.
- intros v e. cbn. rewrite loop_facts.escapeString_bytes. reflexivity.
- intros v b Hb. cbn. rewrite Hb. reflexivity.
- intros v Hv. cbn. rewrite Hv. reflexivity.
Qed.

(** C8.  Whatever way [Generate] ends, the message it returns has the
  role assistant. *)
Theorem Generate_returns_assistant r w history :
MsgRole (res_msg (Generate r w history).1.1) = RoleAssistant.
Proof.
unfold agent.Generate. destruct (Model (conf r)) as [m|]; [|reflexivity].
pose proof (loop_facts.loop_role json_Marshal fmt_v (Z.to_nat (MaxStep (conf r))) m
              (Tools (conf r)) (messages (state r) ++ history) w) as H.
destruct (agent.loop _ _ _ _ _ _ _) as [[res msgs'] w']. exact H.
Qed.

(** C10, as amended.  When the agent is constructed with a model and a
  [MaxStep] that is negative once the options are applied, the
  constructor leaves it as it is (it replaces only zero, by 8), and
  every later call of [Generate] returns the assistant message "max
  steps reached" with a nil error without calling the model. *)
Theorem negative_MaxStep conf0 opts w m :
let ra0 := apply_options {| state := {| messages := [] |}; conf := conf0 |} opts in
MaxStep (conf ra0) < 0 ->
Model (conf ra0) = Some m ->
let ra := (NewReactAgent conf0 opts w).1.1 in
let w1 := (NewReactAgent conf0 opts w).2 in
MaxStep (conf ra) = MaxStep (conf ra0) /\
(forall c : @ReactAgentConfig Value MState,
    MaxStep (conf (NewReactAgent c [] w).1.1) = if MaxStep c =? 0 then 8 else MaxStep c) /\
forall histories,
  Forall (fun res => res_msg res = assistant "max steps reached" /\ res_err res = None)
    (Generates ra w1 histories).1.1 /\
  length (Generates ra w1 histories).1.1 = length histories /\
  calls (Generates ra w1 histories).2 = calls w1.
Proof.
intros ra0 Hneg Hmodel ra w1. subst ra w1. unfold NewReactAgent. fold ra0. cbn.
destruct (Z.eqb_spec (MaxStep (conf ra0)) 0) as [H0|H0]; [lia|].
split; [reflexivity|]. split.
{ intros c. cbn. destruct (Z.eqb_spec (MaxStep c) 0); reflexivity. }
rewrite Hmodel. cbn.
generalize (BindTools m (model_state w) (map Info (Tools (conf ra0)))). intros s.
assert (Hgen : forall (r : ReactAgent) (w' : World) histories,
           conf r = conf ra0 ->
           Forall (fun res => res_msg res = assistant "max steps reached" /\ res_err res = None)
             (Generates r w' histories).1.1 /\
           length (Generates r w' histories).1.1 = length histories /\
           calls (Generates r w' histories).2 = calls w').
{ intros r w' histories. revert r w'.
  induction histories as [|history histories IH]; intros r w' Hconf; cbn [agent.Generates].
  - cbn. auto.
  - rewrite (loop_facts.Generate_exhausted json_Marshal fmt_v r w' history m)
      by (rewrite Hconf; [exact Hmodel || lia]).
    match goal with |- context [agent.Generates _ _ ?r' ?w'' histories] =>
      specialize (IH r' w'' Hconf) end.
    destruct (agent.Generates _ _ _ _ _) as [[ress r''] w'']. cbn in *.
    destruct IH as (IH1 & IH2 & IH3). repeat split; auto. }
intros histories.
exact (Hgen ra0 {| model_state := s; calls := calls w |} histories eq_refl).
Qed.

End AgentClaims.

(** ** The stream decoder *)

Module decoder_facts.
Import chatmodel.

Lemma append_nil (b : string) : "" +:+ b = b.
Proof. reflexivity. Qed.

Lemma append_cons c (a b : string) : String c a +:+ b = String c (a +:+ b).
Proof. reflexivity. Qed.

Lemma length_append (a b : string) :
  String.length (a +:+ b) = (String.length a + String.length b)%nat.
Proof.
  induction a as [|c a IH]; [reflexivity|].
  change (S (String.length (a +:+ b)) = S (String.length a + String.length b)).
  f_equal. exact IH.
Qed.

Lemma cut_shorter s d line rest :
  bytes.cut s d = Some (line, rest) -> (String.length rest < String.length s)%nat.
Proof.
  revert line. induction s as [|c s IH]; intros line; cbn; [discriminate|].
  destruct (Ascii.eqb c d); [intros [= _ <-]; lia|].
  destruct (bytes.cut s d) as [[l r]|]; [|discriminate].
  intros [= _ <-]. specialize (IH l eq_refl). lia.
Qed.

Lemma cut_first line d rest :
  bytes.cut line d = None ->
  bytes.cut (line +:+ String d rest) d = Some (line +:+ String d EmptyString, rest).
Proof.
  induction line as [|c line IH]; rewrite ?append_nil, ?append_cons; cbn.
  - intros _. rewrite Ascii.eqb_refl. reflexivity.
  - destruct (Ascii.eqb c d); [discriminate|].
    destruct (bytes.cut line d) as [[l r]|]; [discriminate|].
    intros _. rewrite IH by reflexivity. reflexivity.
Qed.

(** More fuel than the buffer has bytes does not change the result. *)
Lemma read_lines_fuel f1 : forall f2 w,
  (enough w <= f1)%nat -> (enough w <= f2)%nat -> read_lines f1 w = read_lines f2 w.
Proof.
  unfold enough. induction f1 as [|f1 IH]; intros [|f2] w H1 H2; try lia.
  cbn [read_lines]. unfold bytes.ReadString.
  destruct (bytes.cut (bytes.unread (buf w)) LF) as [[line rest]|] eqn:E; [|reflexivity].
  apply cut_shorter in E. cbn [fst snd].
  assert (Hrec : forall w', bytes.unread (buf w') = rest ->
                            read_lines f1 w' = read_lines f2 w').
  { intros w' Hw'. apply IH; rewrite Hw'; lia. }
  repeat match goal with
    | |- (if ?b then _ else _) = (if ?b then _ else _) => destruct b
    | |- match ?x with _ => _ end = match ?x with _ => _ end => destruct x
    end; try reflexivity; apply Hrec; reflexivity.
Qed.

Lemma read_lines_drain fuel w : (enough w <= fuel)%nat -> read_lines fuel w = drain w.
Proof. intros H. apply read_lines_fuel; [exact H|reflexivity]. Qed.

Lemma drain_fuel w : drain w <> NoFuel.
Proof.
  unfold drain. remember (enough w) as fuel eqn:Hf.
  assert (H : (enough w <= fuel)%nat) by lia. clear Hf. revert w H.
  unfold enough. induction fuel as [|fuel IH]; intros w H; [lia|].
  cbn [read_lines]. unfold bytes.ReadString.
  destruct (bytes.cut (bytes.unread (buf w)) LF) as [[line rest]|] eqn:E; [|discriminate].
  apply cut_shorter in E. cbn [fst snd].
  assert (Hrec : forall w', bytes.unread (buf w') = rest -> read_lines fuel w' <> NoFuel).
  { intros w' Hw'. apply IH. rewrite Hw'. lia. }
  repeat match goal with
    | |- (if ?b then _ else _) <> _ => destruct b
    | |- match ?x with _ => _ end <> _ => destruct x
    end; try discriminate; apply Hrec; reflexivity.
Qed.

(** The inner loop leaves nothing in the buffer when it goes back to [select]. *)
Lemma drain_select_empty w w' : drain w = Select w' -> bytes.unread (buf w') = "".
Proof.
  unfold drain. generalize (enough w). intros fuel. revert w.
  induction fuel as [|fuel IH]; intros w; [discriminate|].
  cbn [read_lines]. unfold bytes.ReadString.
  destruct (bytes.cut (bytes.unread (buf w)) LF) as [[line rest]|] eqn:E;
    [|intros [= <-]; reflexivity].
  cbn [fst snd].
  repeat match goal with
    | |- (if ?b then _ else _) = _ -> _ => destruct b
    | |- match ?x with _ => _ end = _ -> _ => destruct x
    end; try discriminate; apply IH.
Qed.

(** One turn of the inner loop on a buffer that starts with a whole line. *)
Lemma drain_line w line rest :
  bytes.unread (buf w) = line +:+ String LF rest ->
  bytes.cut line LF = None ->
  let t := strings.TrimRight (line +:+ String LF EmptyString) CRLF in
  let w' := with_buf w {| bytes.unread := rest |} in
  drain w =
    if String.eqb t "" || strings.HasPrefix t ":" then drain w'
    else if negb (strings.HasPrefix t "data: ") then drain w'
    else
      let data := strings.TrimPrefix t "data: " in
      if String.eqb data "[DONE]" then Exit w'
      else match Unmarshal_stream data with
           | None => drain w'
           | Some streamResp =>
               match Choices streamResp with
               | choice :: _ =>
                   if negb (String.eqb (QContent (Delta choice)) "") then
                     drain (send_msg w' {| MsgRole := RoleAssistant;
                                           Content := QContent (Delta choice) |})
                   else drain w'
               | [] => drain w'
               end
           end.
Proof.
  intros Hbuf Hline t w'. unfold drain at 1. unfold enough. cbn [read_lines].
  unfold bytes.ReadString. rewrite Hbuf, (cut_first line LF rest Hline). cbn [fst snd].
  fold t. fold w'.
  assert (Hrec : forall w'', bytes.unread (buf w'') = rest ->
            read_lines (String.length (line +:+ String LF rest)) w'' = drain w'').
  { intros w'' Hw''. apply read_lines_drain. unfold enough.
    rewrite Hw'', length_append. cbn. lia. }
  repeat match goal with
    | |- (if ?b then _ else _) = (if ?b then _ else _) => destruct b
    | |- match ?x with _ => _ end = match ?x with _ => _ end => destruct x
    end; try reflexivity; apply Hrec; reflexivity.
Qed.

Lemma HasPrefix_append p s : strings.HasPrefix (p +:+ s) p = true.
Proof.
  induction p as [|c p IH]; [reflexivity|].
  rewrite append_cons. cbn. rewrite Ascii.eqb_refl. exact IH.
Qed.

Lemma drop_bytes_append p s : strings.drop_bytes (String.length p) (p +:+ s) = s.
Proof. induction p as [|c p IH]; [reflexivity|]. rewrite append_cons. exact IH. Qed.

Lemma TrimPrefix_append p s : strings.TrimPrefix (p +:+ s) p = s.
Proof. unfold strings.TrimPrefix. rewrite HasPrefix_append. apply drop_bytes_append. Qed.

End decoder_facts.

(** ** The claims on the stream decoder *)

(** C2, on the code.  The frame of the claim, cut inside its text into
    two chunks, gives no fragment at all: the first chunk has no line
    feed, [ReadString] hands it out with [io.EOF] and the code drops
    it, so the second chunk is read as a line without the "data: "
    prefix.  The same bytes in one chunk give the fragment "Hello". *)
Theorem split_frame_is_lost :
  chatmodel.Stream [chatmodel.RecvChunk fixture.chunk1; chatmodel.RecvChunk fixture.chunk2] =
    chatmodel.Select chatmodel.Worker_init /\
  chatmodel.Stream [chatmodel.RecvChunk (fixture.chunk1 +:+ fixture.chunk2)] =
    chatmodel.Select
      {| chatmodel.buf := {| bytes.unread := "" |};
         chatmodel.msgChan := [{| MsgRole := RoleAssistant; Content := "Hello" |}];
         chatmodel.errChan := [] |}.
Proof. split; vm_compute; reflexivity. Qed.

(** C7, on the code.  The line "data: [DONE]" ends the stream only when
    it reaches the buffer in one piece.  Cut in two chunks at any of
    its twelve inner positions, it does not: the first chunk has no
    line feed, [ReadString] hands it out with [io.EOF] and the code
    drops it, so what arrives next is not the end-of-stream line; the
    worker goes back to [select] and a frame that comes later is still
    sent.  The same bytes in one chunk make the worker return, and the
    later frame is not looked at. *)
Theorem split_sentinel_is_missed :
  Forall (fun n =>
            chatmodel.Stream
              [chatmodel.RecvChunk (substring 0 n fixture.done);
               chatmodel.RecvChunk (substring n (13 - n) fixture.done);
               chatmodel.RecvChunk fixture.frame] =
              chatmodel.Select fixture.after_frame)
         (seq 1 12) /\
  chatmodel.Stream
    [chatmodel.RecvChunk fixture.done_head; chatmodel.RecvChunk fixture.done_tail;
     chatmodel.RecvChunk fixture.frame] =
    chatmodel.Select fixture.after_frame /\
  chatmodel.Stream
    [chatmodel.RecvChunk (fixture.done_head +:+ fixture.done_tail);
     chatmodel.RecvChunk fixture.frame] =
    chatmodel.Exit chatmodel.Worker_init.
Proof.
  split; [|split; vm_compute; reflexivity].
  cbv [seq]. repeat (apply List.Forall_cons; [vm_compute; reflexivity|]).
  apply List.Forall_nil.
Qed.

Section DecoderLines.
Import chatmodel.

(** For a line that the inner loop takes out of the buffer ([t] is the
  line without its trailing carriage returns and line feeds; [dropped]
  is the worker after the line with nothing sent, [sent m] the worker
  after the line with [m] sent): an empty line, a line that starts
  with a colon and a line without the "data: " prefix are dropped;
  the line "data: [DONE]" makes the worker return without sending a
  message or an error, whatever follows in the buffer or in later
  chunks; a line whose data does not decode is dropped and the loop
  goes on; a line whose data decodes to an event whose first choice
  has a non-empty delta content sends one message with that content
  after those already sent, and the loop goes on with the rest of the
  buffer.  When the line is the last of the buffer, the worker is
  back in [select] with exactly that sent. *)
Theorem decoder_line_cases w line rest :
bytes.unread (buf w) = line +:+ String LF rest ->
bytes.cut line LF = None ->
let t := strings.TrimRight (line +:+ String LF EmptyString) CRLF in
let dropped := {| buf := {| bytes.unread := rest |}; msgChan := msgChan w;
                  errChan := errChan w |} in
let sent m := {| buf := {| bytes.unread := rest |}; msgChan := msgChan w ++ [m];
                 errChan := errChan w |} in
(t = "" \/ strings.HasPrefix t ":" = true \/ strings.HasPrefix t "data: " = false ->
 drain w = drain dropped /\ (rest = "" -> drain w = Select dropped)) /\
(t = "data: [DONE]" ->
 drain w = Exit dropped /\
 forall w0 evs,
   bytes.unread (buf w0) = "" ->
   serve w0 (RecvChunk (line +:+ String LF rest) :: evs) =
     Exit {| buf := {| bytes.unread := rest |}; msgChan := msgChan w0;
             errChan := errChan w0 |}) /\
(forall data,
   t = "data: " +:+ data -> data <> "[DONE]" -> Unmarshal_stream data = None ->
   drain w = drain dropped /\ (rest = "" -> drain w = Select dropped)) /\
(forall data streamResp choice others,
   t = "data: " +:+ data ->
   Unmarshal_stream data = Some streamResp ->
   Choices streamResp = choice :: others ->
   QContent (Delta choice) <> "" ->
   let m := {| MsgRole := RoleAssistant; Content := QContent (Delta choice) |} in
   drain w = drain (sent m) /\ (rest = "" -> drain w = Select (sent m))).
Proof.
intros Hbuf Hline t dropped sent.
pose proof (decoder_facts.drain_line w line rest Hbuf Hline) as Hd.
cbv zeta in Hd. fold t in Hd.
change (with_buf w {| bytes.unread := rest |}) with dropped in Hd.
assert (Hdata : forall data, t = "data: " +:+ data ->
          String.eqb t "" || strings.HasPrefix t ":" = false /\
          strings.HasPrefix t "data: " = true /\
          strings.TrimPrefix t "data: " = data).
{ intros data ->. rewrite decoder_facts.HasPrefix_append, decoder_facts.TrimPrefix_append.
  repeat split; reflexivity. }
assert (Hlast : forall w1 w2, drain w = drain w1 -> w1 = w2 ->
          bytes.unread (buf w2) = rest ->
          drain w = drain w2 /\ (rest = "" -> drain w = Select w2)).
{ intros w1 w2 H <- Hr. split; [exact H|]. intros Hrest. rewrite H.
  destruct w1 as [[u] ms es]. cbn in Hr. subst u. rewrite Hrest. reflexivity. }
split; [|split; [|split]].
- intros H. apply (Hlast dropped); [|reflexivity|reflexivity].
  destruct H as [H|[H|H]]; rewrite Hd.
  + rewrite H. reflexivity.
  + rewrite H, orb_true_r. reflexivity.
  + rewrite H. cbn. destruct (_ || _); reflexivity.
- intros Ht. assert (Hexit : forall w1 : Worker,
      bytes.unread (buf w1) = line +:+ String LF rest ->
      drain w1 = Exit (with_buf w1 {| bytes.unread := rest |})).
  { intros w1 Hw1. rewrite (decoder_facts.drain_line w1 line rest Hw1 Hline).
    cbv zeta. fold t. rewrite Ht. reflexivity. }
  split; [apply Hexit; exact Hbuf|].
  intros w0 evs Hw0. cbn [serve on_event].
  rewrite Hexit; [reflexivity|]. cbn. rewrite Hw0. reflexivity.
- intros data Ht Hdone Hnone. apply (Hlast dropped); [|reflexivity|reflexivity].
  rewrite Hd.
  destruct (Hdata data Ht) as (-> & -> & ->). cbn [negb].
  destruct (String.eqb_spec data "[DONE]"); [contradiction|]. rewrite Hnone. reflexivity.
- intros data streamResp choice others Ht Hsome Hch Hne m.
  apply (Hlast (send_msg dropped m)); [|reflexivity|reflexivity].
  rewrite Hd.
  destruct (Hdata data Ht) as (-> & -> & ->). cbn [negb].
  destruct (String.eqb_spec data "[DONE]") as [->|_]; [vm_compute in Hsome; discriminate|].
  rewrite Hsome, Hch.
  destruct (String.eqb_spec (QContent (Delta choice)) ""); [contradiction|]. reflexivity.
Qed.

End DecoderLines.

(** ** The claim on the parsing rule *)

Section ParseClaim.
Import gojson agent.

(** C4.  The three spellings of a call of [x] with arguments [{a:1}]
  parse to the same call; for every content the result is the one of
  the rule as the specification words it (first name alias holding a
  non-empty string, first arguments alias holding an object); and
  parsing fails exactly when the content does not decode or no name
  alias holds a non-empty string. *)
Theorem parseToolCall_aliases :
let x := ({| CallName := "x"; Args := Some {[ "a" := JNumber "1" ]} |}, true) in
(parseToolCall (dq "{'tool':'x','arguments':{'a':1}}") = x /\
 parseToolCall (dq "{'name':'x','args':{'a':1}}") = x /\
 parseToolCall (dq "{'function':{'name':'x'},'input':{'a':1}}") = x) /\
(forall content, parseToolCall content = parseToolCall_spec content) /\
(forall content,
   (parseToolCall content).2 = false <->
   Unmarshal_map content = None \/
   exists raw, Unmarshal_map content = Some raw /\
               Forall (fun o => nonempty o = None) (name_aliases raw)).
Proof.
split; [repeat split; vm_compute; reflexivity|].
split; [exact agent_facts.parseToolCall_refines|].
intros content. rewrite agent_facts.parseToolCall_refines. unfold parseToolCall_spec.
destruct (Unmarshal_map content) as [raw|]; [|cbn; tauto].
destruct (first_some (map nonempty (name_aliases raw))) as [name|] eqn:E; cbn.
- split; [discriminate|]. intros [H|(raw' & [= <-] & H)]; [discriminate|].
  apply (proj2 (Forall_map nonempty (fun o => o = None) _)) in H.
  apply agent_facts.first_some_None in H. congruence.
- split; [|reflexivity]. intros _. right. exists raw. split; [reflexivity|].
  apply agent_facts.first_some_None in E.
  apply (proj1 (Forall_map nonempty (fun o => o = None) _)). exact E.
Qed.

End ParseClaim.

(** ** The claims at concrete inputs *)

Section Instances.
Import gojson tool agent fixture.
#[local] Abbreviation Generate' := (Generate marshal fmt).

(** C1 at a run whose second reply asks for the unregistered tool [x]. *)
Lemma Generate_tool_not_found_witness :
res_msg (Generate' agent8 (world script_unknown) hello).1.1 = assistant "tool 'x' not found" /\
length (made (world script_unknown) (Generate' agent8 (world script_unknown) hello).2) = 2%nat.
Proof.
pose proof (Generate_tool_not_found marshal fmt agent8 (world script_unknown) hello
              1%nat (hello ++ calculated) (request "x")
              {| CallName := "x"; Args := None |}) as H.
destruct H as (H1 & H2 & _); [vm_compute; reflexivity ..|].
split; [rewrite H1; reflexivity|exact H2].
Defined.

(** C1 as stated fails there: the error returned is nil. *)
Lemma tool_not_found_error_counterexample :
made (world script_unknown) (Generate' agent8 (world script_unknown) hello).2 !! 1%nat =
  Some (hello ++ calculated, (Some (request "x"), None)) /\
parseToolCall (Content (request "x")) = ({| CallName := "x"; Args := None |}, true) /\
select_tool tools "x" = None /\
~ (exists e, res_err (Generate' agent8 (world script_unknown) hello).1.1 = Some e).
Proof.
repeat split; try (vm_compute; reflexivity).
intros [e He]. vm_compute in He. discriminate.
Qed.


(** C5 at a run whose second reply is the answer. *)
Lemma Generate_assistant_answer_witness :
(Generate' agent8 (world script_answer) hello).1.1 =
  {| res_msg := answer; res_err := None; res_state := None |} /\
length (made (world script_answer) (Generate' agent8 (world script_answer) hello).2) = 2%nat.
Proof.
pose proof (Generate_assistant_answer marshal fmt agent8 (world script_answer) hello 8) as H.
destruct H as (_ & H); [lia|reflexivity|].
destruct (H 1%nat (hello ++ calculated) answer) as (H1 & _ & H3);
  [vm_compute; reflexivity ..|].
split; [exact H1|exact H3].
Defined.

(** C6 at a failing tool: the loop goes on with the error fed back. *)
Lemma tool_outcome_fed_back_witness :
loop marshal fmt 3 always_broken tools hello (world tt) =
  loop marshal fmt 2 always_broken tools
    (hello ++ [request "broken";
               {| MsgRole := RoleTool;
                  Content := dq "{'error':'bad" +:+ TAB +:+ dq "input'}" |}])
    {| model_state := tt; calls := [(hello, (Some (request "broken"), None))] |}.
Proof.
pose proof (tool_outcome_fed_back marshal fmt 2 always_broken tools hello (world tt)
              (request "broken") {| CallName := "broken"; Args := None |} broken tt) as H.
destruct H as (H1 & _); [vm_compute; reflexivity ..|].
exact H1.
Defined.

(** C6 as stated fails there: the tab of the message is in the content as it is. *)
Lemma tool_error_control_counterexample :
react marshal fmt tools hello (Some (request "broken"), None) =
  Continue (hello ++ [request "broken";
                      {| MsgRole := RoleTool;
                         Content := dq "{'error':'bad" +:+ TAB +:+ dq "input'}" |}]) /\
has_control (escapeString ("bad" +:+ TAB +:+ "input")) = true /\
has_control (dq "{'error':'bad" +:+ TAB +:+ dq "input'}") = true.
Proof. repeat split; vm_compute; reflexivity. Qed.

(** C10 with a model and [MaxStep = -3]. *)
Lemma negative_MaxStep_witness :
MaxStep conf_negative < 0 /\
MaxStep (conf (NewReactAgent conf_negative [] (world tt)).1.1) = -3 /\
(Generates marshal fmt (NewReactAgent conf_negative [] (world tt)).1.1
   (NewReactAgent conf_negative [] (world tt)).2 [hello; hello]).2 = world tt.
Proof.
pose proof (negative_MaxStep marshal fmt conf_negative [] (world tt) always_calculator) as H.
cbv zeta in H. destruct H as (H1 & _ & H3); [vm_compute; reflexivity ..|].
split; [vm_compute; reflexivity|]. split; [exact H1|].
destruct (H3 [hello; hello]) as (_ & _ & Hc). revert Hc.
destruct (Generates _ _ _ _ _).2 as [[] c]. cbn. intros ->. reflexivity.
Defined.

(** C10 as stated fails without a model: [Generate] answers "model not initialized". *)
Lemma negative_MaxStep_counterexample :
MaxStep conf_no_model < 0 /\
MaxStep (conf (NewReactAgent conf_no_model [] (world tt)).1.1) < 0 /\
res_msg (Generate marshal fmt (NewReactAgent conf_no_model [] (world tt)).1.1
           (NewReactAgent conf_no_model [] (world tt)).2 hello).1.1
  = assistant "model not initialized" /\
res_msg (Generate marshal fmt (NewReactAgent conf_no_model [] (world tt)).1.1
           (NewReactAgent conf_no_model [] (world tt)).2 hello).1.1
  <> assistant "max steps reached".
Proof. repeat split; try (vm_compute; reflexivity). vm_compute. discriminate. Qed.

(** A buffer that holds the line of one frame. *)
Lemma decoder_line_cases_witness :
  chatmodel.drain
    (chatmodel.holding chatmodel.Worker_init ("data: " +:+ frame_data +:+ NL)) =
    chatmodel.Select after_frame.
Proof.
  pose proof (decoder_line_cases
                (chatmodel.holding chatmodel.Worker_init ("data: " +:+ frame_data +:+ NL))
                ("data: " +:+ frame_data) "") as H.
  cbv zeta in H. destruct H as (_ & _ & _ & H); [vm_compute; reflexivity ..|].
  destruct (H frame_data hello_event hello_choice []) as [_ H'];
    [vm_compute; reflexivity| vm_compute; reflexivity | reflexivity
    | vm_compute; discriminate |].
  exact (H' eq_refl).
Defined.

End Instances.

(** * Further properties *)

(** ** Escaping and the error payload *)

Module escape_facts.
Import gojson agent jsonlex.

Lemma append_assoc (a b c : string) : (a +:+ b) +:+ c = a +:+ (b +:+ c).
Proof.
  induction a as [|x a IH]; [reflexivity|].
  rewrite !decoder_facts.append_cons, IH. reflexivity.
Qed.

Lemma append_empty_r (a : string) : a +:+ "" = a.
Proof.
  induction a as [|x a IH]; [reflexivity|].
  rewrite decoder_facts.append_cons, IH. reflexivity.
Qed.

Lemma unquote_escape_bytes s : unquote (escape_bytes s) = Some s.
Proof.
  induction s as [|c s IH]; [reflexivity|].
  cbn [escape_bytes]. unfold escape_byte.
  destruct (Ascii.eqb_spec c "\"%char) as [->|Hb].
  { change (unquote (String "\" (String "\" (escape_bytes s))) = Some (String "\" s)).
    cbn. rewrite IH. reflexivity. }
  destruct (Ascii.eqb_spec c dquote) as [->|Hq].
  { change (unquote (String "\" (String dquote (escape_bytes s))) = Some (String dquote s)).
    cbn. rewrite IH. reflexivity. }
  destruct (Ascii.eqb_spec c "010"%char) as [->|Hn].
  { change (unquote (String "\" (String "n" (escape_bytes s))) = Some (String "010" s)).
    cbn. rewrite IH. reflexivity. }
  change (unquote (String c (escape_bytes s)) = Some (String c s)).
  cbn [unquote]. destruct (Ascii.eqb_spec c "\"%char); [contradiction|].
  rewrite IH. reflexivity.
Qed.

(** The scanner inside a string literal whose body is an escaped plain text. *)
Lemma lex_escaped s : forall body rest,
  plain s = true ->
  lex (LStr body) (escape_bytes s +:+ String dquote rest) =
    (str ← unquote (body +:+ escape_bytes s); ts ← lex LIdle rest; Some (TString str :: ts)).
Proof.
  induction s as [|c s IH]; intros body rest Hp.
  - cbn [escape_bytes]. rewrite decoder_facts.append_nil, append_empty_r. reflexivity.
  - cbn [plain] in Hp. apply andb_true_iff in Hp as [Hc Hp].
    cbn [escape_bytes]. unfold escape_byte.
    destruct (Ascii.eqb_spec c "\"%char) as [->|Hb].
    { change (lex (LStr body) (String "\" (String "\" (escape_bytes s +:+ String dquote rest))) = 
              (str ← unquote (body +:+ String "\" (String "\" (escape_bytes s)));
               ts ← lex LIdle rest; Some (TString str :: ts))).
      cbn [lex]. cbn. rewrite IH by exact Hp. unfold snoc.
      rewrite !append_assoc. reflexivity. }
    destruct (Ascii.eqb_spec c dquote) as [->|Hq].
    { change (lex (LStr body) (String "\" (String dquote (escape_bytes s +:+ String dquote rest))) = 
              (str ← unquote (body +:+ String "\" (String dquote (escape_bytes s)));
               ts ← lex LIdle rest; Some (TString str :: ts))).
      cbn [lex]. cbn. rewrite IH by exact Hp. unfold snoc.
      rewrite !append_assoc. reflexivity. }
    destruct (Ascii.eqb_spec c "010"%char) as [->|Hn].
    { change (lex (LStr body) (String "\" (String "n" (escape_bytes s +:+ String dquote rest))) = 
              (str ← unquote (body +:+ String "\" (String "n" (escape_bytes s)));
               ts ← lex LIdle rest; Some (TString str :: ts))).
      cbn [lex]. cbn. rewrite IH by exact Hp. unfold snoc.
      rewrite !append_assoc. reflexivity. }
    change (lex (LStr body) (String c (escape_bytes s +:+ String dquote rest)) = 
              (str ← unquote (body +:+ String c (escape_bytes s));
               ts ← lex LIdle rest; Some (TString str :: ts))).
    cbn [lex].
    destruct (Ascii.eqb_spec c dquote); [contradiction|].
    destruct (Ascii.eqb_spec c "\"%char); [contradiction|].
    assert (Hctl : (code c <? 32)%N = false).
    { unfold plain_byte in Hc. apply orb_true_iff in Hc as [Hc|Hc].
      - apply andb_true_iff in Hc as [Hc _]. apply N.leb_le in Hc. apply N.ltb_ge. exact Hc.
      - apply N.eqb_eq in Hc. exfalso. apply Hn.
        rewrite <- (ascii_N_embedding c). unfold code in Hc. rewrite Hc. reflexivity. }
    rewrite Hctl, IH by exact Hp. unfold snoc. rewrite !append_assoc. reflexivity.
Qed.

End escape_facts.

(** ** The record of the calls of the model *)

Module trace_facts.
Import gojson tool agent.

Section Trace.
Context {Value : Type} (json_Marshal : Value -> option string) (fmt_v : Value -> string).
Context {MState : Type}.
#[local] Abbreviation Tool := (@Tool Value).
#[local] Abbreviation ChatModel := (@ChatModel MState).
#[local] Abbreviation World := (@World MState).
#[local] Abbreviation ReactAgent := (@ReactAgent Value MState).
#[local] Abbreviation react := (react json_Marshal fmt_v).
#[local] Abbreviation loop := (loop json_Marshal fmt_v).
#[local] Abbreviation Generate := (Generate json_Marshal fmt_v).
#[local] Abbreviation run_of := (run_of json_Marshal fmt_v).

(** The ways the body of the loop can end, read off [react]. *)
Lemma react_cases (tools : list Tool) msgs reply :
  match react tools msgs reply with
  | Return r msgs' =>
      res_state r = None /\
      ((exists e, reply.2 = Some e /\ msgs' = msgs /\
                  r = {| res_msg := assistant e; res_err := Some e; res_state := None |}) \/
       (res_err r = None /\ reply.2 = None /\
        (msgs' = msgs \/ exists msg, reply.1 = Some msg /\ msgs' = msgs ++ [msg])))
  | Continue msgs' =>
      reply.2 = None /\
      exists msg, reply.1 = Some msg /\
        (msgs' = msgs ++ [msg] \/
         exists content, msgs' = msgs ++ [msg; {| MsgRole := RoleTool; Content := content |}])
  end.
Proof.
  unfold agent.react. destruct reply as [[msg|] [e|]]; cbn [fst snd].
  - split; [reflexivity|]. left. eauto.
  - destruct (MsgRole msg =? RoleTool).
    + destruct (parseToolCall (Content msg)) as [call ok].
      destruct (negb ok || String.eqb (CallName call) "").
      { split; [reflexivity|]. right. repeat split. right. eauto. }
      destruct (select_tool tools (CallName call)) as [t|].
      * destruct (Execute t (Args call)) as [v err]. split; [reflexivity|].
        exists msg. split; [reflexivity|]. right. rewrite <- app_assoc. eauto.
      * split; [reflexivity|]. right. repeat split. right. eauto.
    + destruct (MsgRole msg =? RoleAssistant).
      * split; [reflexivity|]. right. repeat split. right. eauto.
      * split; [reflexivity|]. eauto.
  - split; [reflexivity|]. left. eauto.
  - split; [reflexivity|]. right. repeat split. left. reflexivity.
Qed.

Lemma loop_run n (m : ChatModel) (tools : list Tool) :
  forall msgs (w : World),
    exists new,
      calls (loop n m tools msgs w).2 = calls w ++ new /\
      run_of tools n msgs new (loop n m tools msgs w).1.1 (loop n m tools msgs w).1.2.
Proof.
  induction n as [|n IH]; intros msgs w; cbn [agent.loop].
  - exists []. cbn. rewrite app_nil_r. split; [reflexivity|constructor].
  - unfold call_model. destruct (ModelGenerate m (model_state w) msgs) as [reply s].
    destruct (react tools msgs reply) as [r msgs'|msgs'] eqn:E.
    + exists [(msgs, reply)]. cbn. split; [reflexivity|]. constructor. exact E.
    + destruct (IH msgs' {| model_state := s; calls := calls w ++ [(msgs, reply)] |})
        as (new & Hc & Hrun).
      exists ((msgs, reply) :: new). cbn in Hc. rewrite Hc, <- app_assoc.
      split; [reflexivity|]. econstructor; eassumption.
Qed.

Lemma run_of_appends tools n msgs new r msgs' :
  run_of tools n msgs new r msgs' -> exists added, msgs' = msgs ++ added.
Proof.
  induction 1 as [msgs|n msgs reply r msgs' Hr|n msgs reply msgs1 new r msgs' Hr Hrun IH].
  - exists []. by rewrite app_nil_r.
  - pose proof (react_cases tools msgs reply) as H. rewrite Hr in H.
    destruct H as (_ & [(e & _ & -> & _)|(_ & _ & [->|(msg & _ & ->)])]).
    + exists []. by rewrite app_nil_r.
    + exists []. by rewrite app_nil_r.
    + eauto.
  - pose proof (react_cases tools msgs reply) as H. rewrite Hr in H.
    destruct H as (_ & msg & _ & [->|(c & ->)]); destruct IH as (added & ->);
      rewrite <- app_assoc; eauto.
Qed.

Lemma run_of_length tools n msgs new r msgs' :
  run_of tools n msgs new r msgs' -> (length new <= n)%nat.
Proof. induction 1; cbn; lia. Qed.

Lemma run_of_state tools n msgs new r msgs' :
  run_of tools n msgs new r msgs' ->
  forall st, res_state r = Some st ->
    st = {| messages := msgs' |} /\
    r = {| res_msg := assistant "max steps reached"; res_err := None;
           res_state := Some {| messages := msgs' |} |} /\
    length new = n.
Proof.
  induction 1 as [msgs|n msgs reply r msgs' Hr|n msgs reply msgs1 new r msgs' Hr Hrun IH];
    intros st Hst.
  - cbn in Hst. injection Hst as <-. auto.
  - pose proof (react_cases tools msgs reply) as H. rewrite Hr in H.
    destruct H as [H _]. congruence.
  - destruct (IH st Hst) as (-> & -> & <-). auto.
Qed.

Lemma run_of_error tools n msgs new r msgs' :
  run_of tools n msgs new r msgs' ->
  forall e,
    res_err r = Some e <->
    exists h o, last new = Some (h, (o, Some e)).
Proof.
  induction 1 as [msgs|n msgs reply r msgs' Hr|n msgs reply msgs1 new r msgs' Hr Hrun IH];
    intros e.
  - cbn. split; [discriminate|]. intros (h & o & H). discriminate.
  - pose proof (react_cases tools msgs reply) as H. rewrite Hr in H. cbn.
    destruct reply as [o oe]. cbn in H.
    destruct H as (_ & [(e' & -> & _ & ->)|(-> & -> & _)]); cbn.
    + split.
      * intros [= ->]. exists msgs, o. reflexivity.
      * intros (h & o' & Hl). cbn in Hl. congruence.
    + split; [discriminate|]. intros (h & o' & Hl). cbn in Hl. congruence.
  - pose proof (react_cases tools msgs reply) as H. rewrite Hr in H.
    destruct H as [Hnone _]. destruct new as [|x new].
    + inversion Hrun; subst. cbn. destruct reply as [o oe]. cbn in Hnone. subst oe.
      split; [discriminate|]. intros (h & o' & Hl). cbn in Hl. congruence.
    + rewrite IH, last_cons_cons. reflexivity.
Qed.

Lemma run_of_error_result tools n msgs new r msgs' :
  run_of tools n msgs new r msgs' ->
  forall h o e, last new = Some (h, (o, Some e)) ->
    r = {| res_msg := assistant e; res_err := Some e; res_state := None |} /\ msgs' = h.
Proof.
  induction 1 as [msgs|n msgs reply r msgs' Hr|n msgs reply msgs1 new r msgs' Hr Hrun IH];
    intros h o e Hl.
  - discriminate.
  - cbn in Hl. injection Hl as -> ->. unfold agent.react in Hr.
    destruct o; injection Hr as <- <-; auto.
  - destruct new as [|x new]; [|rewrite last_cons_cons in Hl; eauto].
    pose proof (react_cases tools msgs reply) as H. rewrite Hr in H.
    destruct H as [Hnone _]. cbn in Hl. injection Hl as -> ->. discriminate.
Qed.

(** Each call gets the history the previous iteration left. *)
Lemma run_of_chain tools n msgs new r msgs' :
  run_of tools n msgs new r msgs' ->
  (forall h reply, new !! 0%nat = Some (h, reply) -> h = msgs) /\
  (forall i h1 r1 h2 r2,
     new !! i = Some (h1, r1) -> new !! S i = Some (h2, r2) ->
     react tools h1 r1 = Continue h2).
Proof.
  induction 1 as [msgs|n msgs reply r msgs' Hr|n msgs reply msgs1 new r msgs' Hr Hrun IH].
  - split; intros; discriminate.
  - split; [intros h reply' [= <- _]; reflexivity|].
    intros i h1 r1 h2 r2 _ H2. destruct i; discriminate.
  - destruct IH as [IH0 IHs]. split; [intros h reply' [= <- _]; reflexivity|].
    intros [|i] h1 r1 h2 r2 H1 H2; cbn in H1, H2.
    + injection H1 as <- <-. rewrite (IH0 _ _ H2). exact Hr.
    + eauto.
Qed.

Lemma Generate_run (r : ReactAgent) (w : World) history m :
  Model (conf r) = Some m ->
  exists new,
    calls (Generate r w history).2 = calls w ++ new /\
    made w (Generate r w history).2 = new /\
    conf (Generate r w history).1.2 = conf r /\
    run_of (Tools (conf r)) (Z.to_nat (MaxStep (conf r)))
      (messages (state r) ++ history) new
      (Generate r w history).1.1 (messages (state (Generate r w history).1.2)).
Proof.
  intros Hm. unfold agent.Generate. rewrite Hm.
  destruct (loop_run (Z.to_nat (MaxStep (conf r))) m (Tools (conf r))
              (messages (state r) ++ history) w) as (new & Hc & Hrun).
  destruct (loop _ _ _ _ _) as [[res msgs'] w']. cbn in *.
  exists new. split; [exact Hc|]. split; [|split; [reflexivity|exact Hrun]].
  unfold made. rewrite Hc. apply drop_app_length.
Qed.

End Trace.
End trace_facts.

Section AgentExtras.
Import gojson tool agent.
Context {Value : Type} (json_Marshal : Value -> option string) (fmt_v : Value -> string).
Context {MState : Type}.
#[local] Abbreviation Generate := (Generate json_Marshal fmt_v (MState := MState)).
#[local] Abbreviation react := (react json_Marshal fmt_v).

(** [Generate] only appends to the history and leaves the
    configuration alone: with a model, the history afterwards is the
    old history, then the input messages, then what the loop added;
    without a model nothing changes at all, the input messages are not
    recorded and the answer is "model not initialized" with a nil
    error. *)
Theorem Generate_appends r w history :
  conf (Generate r w history).1.2 = conf r /\
  match Model (conf r) with
  | Some _ =>
      exists added,
        messages (state (Generate r w history).1.2) =
          messages (state r) ++ history ++ added
  | None =>
      Generate r w history =
        ({| res_msg := assistant "model not initialized";
            res_err := None; res_state := None |}, r, w)
  end.
Proof.
  destruct (Model (conf r)) as [m|] eqn:Hm.
  - destruct (trace_facts.Generate_run json_Marshal fmt_v r w history m Hm)
      as (new & _ & _ & Hconf & Hrun).
    split; [exact Hconf|].
    destruct (trace_facts.run_of_appends _ _ _ _ _ _ _ _ Hrun) as (added & Ha).
    exists added. rewrite Ha, app_assoc. reflexivity.
  - unfold agent.Generate. rewrite Hm. split; reflexivity.
Qed.

(** [Generate] returns a non-nil error exactly when the last call of
    the model it made returned that error; the message returned is then
    the assistant message holding the error text, the state returned is
    nil, and the failed call has added nothing to the history. *)
Theorem Generate_error_iff r w history e :
  (res_err (Generate r w history).1.1 = Some e <->
   exists h o, last (made w (Generate r w history).2) = Some (h, (o, Some e))) /\
  (forall h o,
     last (made w (Generate r w history).2) = Some (h, (o, Some e)) ->
     (Generate r w history).1.1 =
       {| res_msg := assistant e; res_err := Some e; res_state := None |} /\
     messages (state (Generate r w history).1.2) = h).
Proof.
  destruct (Model (conf r)) as [m|] eqn:Hm.
  - destruct (trace_facts.Generate_run json_Marshal fmt_v r w history m Hm)
      as (new & _ & -> & _ & Hrun).
    split; [exact (trace_facts.run_of_error _ _ _ _ _ _ _ _ Hrun e)|].
    intros h o. exact (trace_facts.run_of_error_result _ _ _ _ _ _ _ _ Hrun h o e).
  - unfold agent.Generate. rewrite Hm. unfold made. cbn. rewrite drop_all. cbn.
    split; [split; [discriminate|intros (h & o & H); discriminate]|].
    intros h o H. discriminate.
Qed.

(** The state pointer that [Generate] returns is non-nil only when the
    step budget ran out: it is then the state of the agent, the message
    is "max steps reached", the error is nil and the model was called
    once per step of the budget. *)
Theorem Generate_state_when_exhausted r w history st :
  res_state (Generate r w history).1.1 = Some st ->
  st = state (Generate r w history).1.2 /\
  res_msg (Generate r w history).1.1 = assistant "max steps reached" /\
  res_err (Generate r w history).1.1 = None /\
  length (made w (Generate r w history).2) = Z.to_nat (MaxStep (conf r)).
Proof.
  destruct (Model (conf r)) as [m|] eqn:Hm.
  - destruct (trace_facts.Generate_run json_Marshal fmt_v r w history m Hm)
      as (new & _ & -> & _ & Hrun).
    intros Hst. destruct (trace_facts.run_of_state _ _ _ _ _ _ _ _ Hrun st Hst)
      as (-> & Hres & <-).
    rewrite Hres. cbn. repeat split.
    destruct (state (Generate r w history).1.2). reflexivity.
  - unfold agent.Generate. rewrite Hm. discriminate.
Qed.

(** What the model is shown: the first call of an invocation gets the
    old history followed by the input messages, and every later call
    gets the history of the call before it extended by what the loop
    appended on its reply, which is one message, or a tool request and
    its result. *)
Theorem model_sees_growing_history r w history m :
  Model (conf r) = Some m ->
  (forall h reply,
     made w (Generate r w history).2 !! 0%nat = Some (h, reply) ->
     h = messages (state r) ++ history) /\
  (forall i h1 r1 h2 r2,
     made w (Generate r w history).2 !! i = Some (h1, r1) ->
     made w (Generate r w history).2 !! S i = Some (h2, r2) ->
     react (Tools (conf r)) h1 r1 = Continue h2 /\
     exists msg, r1 = (Some msg, None) /\
       (h2 = h1 ++ [msg] \/
        exists content, h2 = h1 ++ [msg; {| MsgRole := RoleTool; Content := content |}])).
Proof.
  intros Hm.
  destruct (trace_facts.Generate_run json_Marshal fmt_v r w history m Hm)
    as (new & _ & -> & _ & Hrun).
  destruct (trace_facts.run_of_chain _ _ _ _ _ _ _ _ Hrun) as [H0 Hs].
  split; [exact H0|]. intros i h1 r1 h2 r2 H1 H2.
  pose proof (Hs _ _ _ _ _ H1 H2) as Hr. split; [exact Hr|].
  pose proof (trace_facts.react_cases json_Marshal fmt_v (Tools (conf r)) h1 r1) as Hc.
  rewrite Hr in Hc. destruct r1 as [o oe]. cbn in Hc.
  destruct Hc as (-> & msg & -> & Hc). eauto.
Qed.

(** A tool-role reply whose content does not parse to a call ends the
    turn: the request stays appended to the history, no tool runs, no
    further call is made, and the answer is "invalid tool call payload"
    with a nil error. *)
Theorem Generate_invalid_payload r w history k h msg :
  made w (Generate r w history).2 !! k = Some (h, (Some msg, None)) ->
  MsgRole msg = RoleTool ->
  (parseToolCall (Content msg)).2 = false ->
  (Generate r w history).1.1 =
    {| res_msg := assistant "invalid tool call payload";
       res_err := None; res_state := None |} /\
  messages (state (Generate r w history).1.2) = h ++ [msg] /\
  length (made w (Generate r w history).2) = S k.
Proof.
  intros Hk Hrole Hparse.
  destruct (loop_facts.Generate_calls json_Marshal fmt_v r w history) as (new & Hc & _ & Hn).
  rewrite (loop_facts.made_app _ _ _ Hc) in *.
  eapply Hn; [exact Hk|]. unfold agent.react. rewrite Hrole.
  destruct (parseToolCall (Content msg)) as [call ok]. cbn in Hparse. subst ok. reflexivity.
Qed.

(** A reply with neither a message nor an error ends the turn with the
    answer "empty message returned" and a nil error; the history is the
    one that call was given. *)
Theorem Generate_empty_reply r w history k h :
  made w (Generate r w history).2 !! k = Some (h, (None, None)) ->
  (Generate r w history).1.1 =
    {| res_msg := assistant "empty message returned";
       res_err := None; res_state := None |} /\
  messages (state (Generate r w history).1.2) = h /\
  length (made w (Generate r w history).2) = S k.
Proof.
  intros Hk.
  destruct (loop_facts.Generate_calls json_Marshal fmt_v r w history) as (new & Hc & _ & Hn).
  rewrite (loop_facts.made_app _ _ _ Hc) in *.
  eapply Hn; [exact Hk|]. reflexivity.
Qed.

(** Replies with the role user or system do not end the turn but use
    up the budget: when every reply is such a message, [Generate] calls
    the model once per step, appends one message per call and returns
    "max steps reached". *)
Theorem Generate_echo_budget r w history m :
  Model (conf r) = Some m ->
  (forall s h, exists msg,
      (ModelGenerate m s h).1 = (Some msg, None) /\
      (MsgRole msg = RoleUser \/ MsgRole msg = RoleSystem)) ->
  res_msg (Generate r w history).1.1 = assistant "max steps reached" /\
  res_err (Generate r w history).1.1 = None /\
  length (made w (Generate r w history).2) = Z.to_nat (MaxStep (conf r)) /\
  length (messages (state (Generate r w history).1.2)) =
    (length (messages (state r) ++ history) + Z.to_nat (MaxStep (conf r)))%nat.
Proof.
  intros Hm Hecho.
  destruct (loop_facts.Generate_calls json_Marshal fmt_v r w history) as (new & Hc & _ & _).
  rewrite (loop_facts.made_app _ _ _ Hc).
  revert Hc. unfold agent.Generate. rewrite Hm.
  generalize (messages (state r) ++ history) as msgs.
  generalize (Z.to_nat (MaxStep (conf r))) as n. intros n. revert w new.
  induction n as [|n IH]; intros w new msgs; cbn [agent.loop].
  - cbn. intros Hc. apply (f_equal length) in Hc. rewrite length_app in Hc.
    repeat split; lia.
  - unfold call_model. destruct (Hecho (model_state w) msgs) as (msg & Hg & Hrole).
    destruct (ModelGenerate m (model_state w) msgs) as [reply s]. cbn in Hg. subst reply.
    assert (Hr : react (Tools (conf r)) msgs (Some msg, None) = Continue (msgs ++ [msg])).
    { unfold agent.react. destruct Hrole as [-> | ->]; reflexivity. }
    rewrite Hr. intros Hc.
    assert (Hnew : exists new', new = (msgs, (Some msg, None)) :: new').
    { specialize (IH {| model_state := s; calls := calls w ++ [(msgs, (Some msg, None))] |}).
      destruct (loop_facts.loop_calls json_Marshal fmt_v n m (Tools (conf r)) (msgs ++ [msg])
                  {| model_state := s; calls := calls w ++ [(msgs, (Some msg, None))] |})
        as (new' & Hc' & _).
      exists new'. destruct (agent.loop _ _ _ _ _ _ _) as [[res msgs'] w']. cbn in *.
      rewrite Hc', <- app_assoc in Hc. apply app_inv_head in Hc. exact (eq_sym Hc). }
    destruct Hnew as (new' & ->).
    specialize (IH {| model_state := s; calls := calls w ++ [(msgs, (Some msg, None))] |}
                  new' (msgs ++ [msg])).
    destruct (agent.loop _ _ _ _ _ _ _) as [[res msgs'] w']. cbn in *.
    destruct IH as (H1 & H2 & H3 & H4); [rewrite Hc, <- app_assoc; reflexivity|].
    rewrite length_app in H4. cbn in H4. repeat split; auto; lia.
Qed.

(** The constructor never leaves a zero budget, makes no call of
    [Generate] on the model, returns a nil error, and hands the model
    the descriptions of the tools in their order. *)
Theorem NewReactAgent_invariants (conf0 : @ReactAgentConfig Value MState) opts w :
  let ra0 := apply_options {| state := {| messages := [] |}; conf := conf0 |} opts in
  let ra := (NewReactAgent conf0 opts w).1.1 in
  MaxStep (conf ra) <> 0 /\
  (NewReactAgent conf0 opts w).1.2 = None /\
  calls (NewReactAgent conf0 opts w).2 = calls w /\
  Model (conf ra) = Model (conf ra0) /\ Tools (conf ra) = Tools (conf ra0) /\
  state ra = state ra0 /\
  model_state (NewReactAgent conf0 opts w).2 =
    match Model (conf ra0) with
    | Some m => BindTools m (model_state w) (map Info (Tools (conf ra0)))
    | None => model_state w
    end.
Proof.
  intros ra0 ra. subst ra. unfold NewReactAgent. fold ra0. cbn.
  destruct (Z.eqb_spec (MaxStep (conf ra0)) 0) as [H0|H0]; cbn;
    destruct (Model (conf ra0)); cbn; repeat split; auto; lia.
Qed.

(** Of several [WithMaxStep] options the last one decides the budget,
    whatever the configuration said; a last value of zero gives 8. *)
Theorem WithMaxStep_last_wins (conf0 : @ReactAgentConfig Value MState) opts n w :
  MaxStep (conf (NewReactAgent conf0 (opts ++ [WithMaxStep n]) w).1.1) =
    if n =? 0 then 8 else n.
Proof.
  unfold NewReactAgent, apply_options. rewrite fold_left_app. cbn.
  destruct (Z.eqb_spec n 0); reflexivity.
Qed.

(** A successful parse always names a tool, and a failed one returns
    the zero value: an empty name and nil arguments. *)
Theorem parseToolCall_outcomes content :
  if (parseToolCall content).2
  then CallName (parseToolCall content).1 <> ""
  else (parseToolCall content).1 = ToolCall_zero.
Proof.
  destruct (parseToolCall content) as [call [|]] eqn:E; cbn.
  - exact (agent_facts.parseToolCall_ok_name content call E).
  - rewrite agent_facts.parseToolCall_refines in E. unfold parseToolCall_spec in E.
    destruct (Unmarshal_map content); [|congruence].
    destruct (first_some _); congruence.
Qed.

End AgentExtras.

(** ** The stream worker *)

Module stream_facts.
Import chatmodel.

Lemma read_lines_inv fuel : forall w,
  Forall fragment (msgChan w) -> errChan w = [] ->
  match read_lines fuel w with
  | Select w' => waiting w'
  | Exit w' => returned w'
  | NoFuel => True
  end.
Proof.
  induction fuel as [|fuel IH]; intros w Hm He; [exact I|].
  cbn [read_lines]. unfold bytes.ReadString.
  destruct (bytes.cut (bytes.unread (buf w)) LF) as [[line rest]|] eqn:E; cbn [fst snd].
  - assert (Hrec : forall w', msgChan w' = msgChan w -> errChan w' = errChan w ->
               match read_lines fuel w' with
               | Select w'' => waiting w'' | Exit w'' => returned w'' | NoFuel => True end).
    { intros w' H1 H2. apply IH; congruence. }
    repeat match goal with
      | |- match (if ?b then _ else _) with _ => _ end => destruct b eqn:?
      | |- match (match ?x with _ => _ end) with _ => _ end => destruct x eqn:?
      end; try (apply Hrec; reflexivity).
    + split; [exact Hm|]. cbn. rewrite He. cbn. lia.
    + apply IH; cbn; [|exact He]. apply Forall_app. split; [exact Hm|].
      constructor; [|constructor]. split; [reflexivity|]. cbn.
      match goal with H : negb (String.eqb ?x "") = true |- _ =>
        apply negb_true_iff in H; apply String.eqb_neq in H; exact H end.
  - change (String.eqb bytes.io_EOF bytes.io_EOF) with true. cbn.
    repeat split; assumption.
Qed.

Lemma on_event_inv w ev :
  waiting w ->
  match on_event w ev with
  | Select w' => waiting w'
  | Exit w' => returned w'
  | NoFuel => False
  end.
Proof.
  intros (Hm & He & Hb). destruct ev as [body| |[err|]| |err]; cbn [on_event].
  - pose proof (decoder_facts.drain_fuel (with_buf w (bytes.Write (buf w) body))) as Hf.
    pose proof (read_lines_inv (enough (with_buf w (bytes.Write (buf w) body)))
                  (with_buf w (bytes.Write (buf w) body)) Hm He) as H.
    unfold drain in *. destruct (read_lines _ _); [exact H|exact H|congruence].
  - split; [exact Hm|]. rewrite He. cbn. lia.
  - split; [exact Hm|]. cbn. rewrite He. cbn. lia.
  - repeat split; assumption.
  - split; [exact Hm|]. rewrite He. cbn. lia.
  - split; [exact Hm|]. cbn. rewrite He. cbn. lia.
Qed.

Lemma serve_inv evs : forall w,
  waiting w ->
  match serve w evs with
  | Select w' => waiting w'
  | Exit w' => returned w'
  | NoFuel => False
  end.
Proof.
  induction evs as [|ev evs IH]; intros w Hw; cbn [serve]; [exact Hw|].
  pose proof (on_event_inv w ev Hw) as H.
  destruct (on_event w ev) as [w'|w'|]; [apply IH; exact H|exact H|exact H].
Qed.

Lemma waiting_init : waiting Worker_init.
Proof. repeat split. constructor. Qed.

(** Once the worker returned, nothing that arrives later is looked at. *)
Lemma serve_app_exit evs1 evs2 w w' :
  serve w evs1 = Exit w' -> serve w (evs1 ++ evs2) = Exit w'.
Proof.
  revert w. induction evs1 as [|ev evs1 IH]; intros w; cbn [serve app]; [discriminate|].
  destruct (on_event w ev); auto.
Qed.

Lemma serve_app_select evs1 evs2 w w' :
  serve w evs1 = Select w' -> serve w (evs1 ++ evs2) = serve w' evs2.
Proof.
  revert w. induction evs1 as [|ev evs1 IH]; intros w; cbn [serve app].
  - intros [= ->]. reflexivity.
  - destruct (on_event w ev); auto; discriminate.
Qed.

End stream_facts.

(** ** The worker and its channels *)

Module channel_facts.
Import chatmodel.

(** The inner loop only adds to what was sent. *)
Lemma read_lines_extends fuel : forall w,
  match read_lines fuel w with
  | Select w' | Exit w' => exists new, msgChan w' = msgChan w ++ new
  | NoFuel => True
  end.
Proof.
  induction fuel as [|fuel IH]; intros w; [exact I|].
  cbn [read_lines]. unfold bytes.ReadString.
  destruct (bytes.cut (bytes.unread (buf w)) LF) as [[line rest]|] eqn:E; cbn [fst snd].
  - assert (Hrec : forall w', (exists new, msgChan w' = msgChan w ++ new) ->
               match read_lines fuel w' with
               | Select w'' | Exit w'' => exists new, msgChan w'' = msgChan w ++ new
               | NoFuel => True end).
    { intros w' [new Hnew]. specialize (IH w').
      destruct (read_lines fuel w') as [w''|w''|]; [| |exact I];
        destruct IH as [new' ->]; exists (new ++ new'); rewrite Hnew, app_assoc; reflexivity. }
    repeat match goal with
      | |- match (if ?b then _ else _) with _ => _ end => destruct b eqn:?
      | |- match (match ?x with _ => _ end) with _ => _ end => destruct x eqn:?
      end;
      try (apply Hrec; cbn; first [exists []; rewrite app_nil_r; reflexivity
                                  | eexists; reflexivity]).
    all: exists []; rewrite app_nil_r; reflexivity.
  - change (String.eqb bytes.io_EOF bytes.io_EOF) with true. cbn.
    exists []. rewrite app_nil_r. reflexivity.
Qed.

Lemma on_event_extends w ev :
  exists new, sent_by (on_event w ev) = msgChan w ++ new /\
              drop (length (msgChan w)) (sent_by (on_event w ev)) = new.
Proof.
  assert (H : exists new, sent_by (on_event w ev) = msgChan w ++ new).
  { destruct ev as [body| |[err|]| |err]; cbn [on_event sent_by];
      try (exists []; cbn; rewrite app_nil_r; reflexivity).
    pose proof (decoder_facts.drain_fuel (with_buf w (bytes.Write (buf w) body))) as Hf.
    pose proof (read_lines_extends (enough (with_buf w (bytes.Write (buf w) body)))
                  (with_buf w (bytes.Write (buf w) body))) as H.
    unfold drain in *. destruct (read_lines _ _); [exact H|exact H|congruence]. }
  destruct H as [new H]. exists new. split; [exact H|].
  rewrite H. apply drop_app_length.
Qed.

Lemma push_spec todo : forall q,
  (length q <= msgChan_cap)%nat ->
  exists pushed,
    todo = pushed ++ (push todo q).1 /\ (push todo q).2 = q ++ pushed /\
    (length (push todo q).2 <= msgChan_cap)%nat /\
    ((push todo q).1 <> [] -> length (push todo q).2 = msgChan_cap).
Proof.
  induction todo as [|m todo IH]; intros q Hq; cbn [push].
  - exists []. cbn. rewrite app_nil_r. repeat split; [exact Hq|congruence].
  - destruct (Nat.ltb_spec (length q) msgChan_cap) as [Hlt|Hge].
    + destruct (IH (q ++ [m])) as (pushed & H1 & H2 & H3 & H4).
      { rewrite length_app. cbn. lia. }
      exists (m :: pushed). repeat split; [cbn; f_equal; exact H1| |exact H3|exact H4].
      rewrite H2, <- app_assoc. reflexivity.
    + exists []. cbn. rewrite app_nil_r. repeat split; [exact Hq|]. intros _. lia.
Qed.

Lemma advance_sound s : ready s -> sound (advance s).
Proof.
  destruct s as [ph q rc es mc ec cx]. unfold ready, sound, advance. cbn.
  intros [Hq H]. destruct ph as [w|todo next|]; cbn; [split; assumption| |split; assumption].
  destruct H as (Hsent & Hnext & -> & -> & ->).
  destruct (push_spec todo q Hq) as (pushed & H1 & H2 & H3 & H4).
  destruct (push todo q) as [todo' q'] eqn:E. cbn in H1, H2, H3, H4.
  assert (Hlog : sent_by next = rc ++ q' ++ todo').
  { rewrite Hsent, H2, H1, <- !app_assoc. reflexivity. }
  destruct todo' as [|m todo'].
  - rewrite app_nil_r in Hlog.
    destruct next as [w|w|]; cbn; [|destruct Hnext as [_ Hn]|contradiction];
      repeat split; try assumption; try (apply Hnext).
  - destruct next as [w|w|]; cbn; [| |contradiction];
      repeat split; try assumption; try congruence; try (apply H4; congruence);
      apply Hnext.
Qed.

Lemma sound_ready s : sound s -> ready s.
Proof.
  unfold sound, ready. intros [Hq H]. split; [exact Hq|].
  destruct (phase s); [exact H| |exact H]. tauto.
Qed.

Lemma sound_init : sound System_init.
Proof.
  split; [cbn; lia|]. cbn. repeat split; try reflexivity. constructor.
Qed.

Lemma step_sound s a s' : sound s -> step s a = Some s' -> sound s'.
Proof.
  intros Hs. destruct a as [e|ev|]; cbn [step].
  - intros [= <-]. exact Hs.
  - destruct s as [ph q rc es mc ec cx]. cbn -[advance].
    destruct ph as [w|todo next|]; try discriminate.
    destruct (deliverable _ ev); [|discriminate]. intros [= <-].
    apply advance_sound. destruct Hs as [Hq (Hw & Hlog & He & Hm & Hc)]. cbn in *.
    split; [exact Hq|]. cbn.
    destruct (on_event_extends w ev) as (new & H1 & H2). rewrite H2.
    repeat split; try assumption.
    + rewrite H1, Hlog, <- app_assoc. reflexivity.
    + pose proof (stream_facts.on_event_inv w ev Hw) as Hi.
      destruct (on_event w ev); exact Hi.
  - destruct s as [ph q rc es mc ec cx]. cbn -[advance]. destruct q as [|m q]; [discriminate|].
    intros [= <-]. apply advance_sound. destruct Hs as [Hq H]. cbn in *.
    split; [cbn; lia|]. cbn. destruct ph as [w|todo next|]; [| |exact H].
    + destruct H as (Hw & Hlog & H). repeat split; try apply Hw; try apply H.
      rewrite Hlog, <- app_assoc. reflexivity.
    + destruct H as (_ & _ & Hlog & H). split; [|exact H].
      rewrite Hlog, <- !app_assoc. reflexivity.
Qed.

Lemma exec_sound acts : forall s s', sound s -> exec s acts = Some s' -> sound s'.
Proof.
  induction acts as [|a acts IH]; intros s s' Hs; cbn [exec].
  - intros [= <-]. exact Hs.
  - destruct (step s a) as [s1|] eqn:E; [|discriminate].
    apply IH. exact (step_sound s a s1 Hs E).
Qed.

Lemma reachable_sound acts s : exec System_init acts = Some s -> sound s.
Proof. apply exec_sound, sound_init. Qed.


(** An event that makes the worker return without a new message
    closes both channels at once. *)
Lemma step_exit s w ev w' :
  sound s -> phase s = AtSelect w -> deliverable s ev = true ->
  on_event w ev = Exit w' -> msgChan w' = msgChan w ->
  exists s',
    step s (Deliver ev) = Some s' /\ phase s' = Gone /\ errors s' = errChan w' /\
    msgChan_closes s' = 1%nat /\ errChan_closes s' = 1%nat /\
    queue s' = queue s /\ received s' = received s /\ cancelled s' = cancelled s.
Proof.
  destruct s as [ph q rc es mc ec cx]. cbn [phase]. intros Hs -> Hd Hev Hm.
  destruct Hs as [_ (_ & _ & _ & Hmc & Hec)]. cbn in Hmc, Hec. subst mc ec.
  cbn [step phase]. rewrite Hd, Hev. cbn [sent_by]. rewrite Hm, drop_all.
  eexists. split; [reflexivity|]. cbn. repeat split.
Qed.

(** A receive by the consumer lets a blocked worker send one more message. *)
Lemma receive_blocked todo : forall s next,
  sound s -> phase s = Sending todo next ->
  exists s', exec s (repeat Receive (length todo)) = Some s' /\
             match phase s' with Sending _ _ => False | _ => True end.
Proof.
  induction todo as [|m todo IH]; intros s next Hs Hp.
  - destruct Hs as [_ Hs]. rewrite Hp in Hs. destruct Hs as [Hne _]. congruence.
  - cbn [length repeat exec].
    destruct (step s Receive) as [s1|] eqn:E.
    + pose proof (step_sound s Receive s1 Hs E) as Hs1.
      destruct s as [ph q rc es mc ec cx]. cbn in Hp. subst ph.
      destruct Hs as [Hq (_ & Hfull & _)]. cbn in Hq, Hfull.
      cbn -[advance] in E. destruct q as [|m0 q]; [discriminate|].
      injection E as <-. unfold advance in *. cbn [phase queue] in *.
      cbn in Hfull.
      assert (Hlt : (length q <? msgChan_cap)%nat = true).
      { apply Nat.ltb_lt. lia. }
      cbn [push] in *. rewrite Hlt in *.
      destruct todo as [|m1 todo].
      * cbn [push] in *. cbn [length repeat exec].
        destruct next as [w|w|]; eexists; (split; [reflexivity|]); cbn; try exact I.
        destruct Hs1 as [_ Hs1]. cbn in Hs1. tauto.
      * assert (Hfull' : (length (q ++ [m]) <? msgChan_cap)%nat = false).
        { apply Nat.ltb_ge. rewrite length_app. cbn. lia. }
        cbn [push] in *. rewrite Hfull' in *.
        match goal with |- context [exec ?s1 _] =>
          destruct (IH s1 next) as (s' & Hx & Hph) end.
        { destruct next; exact Hs1. }
        { destruct next; reflexivity. }
        exists s'. split; [|exact Hph]. exact Hx.
    + exfalso. destruct s as [ph q rc es mc ec cx]. cbn in Hp. subst ph.
      destruct Hs as [_ (_ & Hfull & _)]. cbn in Hfull. cbn in E.
      destruct q; [cbn in Hfull; discriminate|discriminate].
Qed.

End channel_facts.

Section ChannelClaims.
Import chatmodel channel_facts.


(** Cancellation when no read is pending.  A worker that is in the send
    on the full message channel does not look at the context: the
    channel holds 10 messages, nothing is delivered to the worker,
    cancelling leaves it where it is, and it goes on once the consumer
    has received as many messages as it has left to send.  And when
    the context is cancelled but [select] takes the closing of the
    transport's stream, the worker returns and closes both channels
    without any error. *)
Theorem cancel_outside_pending_read acts s :
  exec System_init acts = Some s ->
  (forall todo next,
     phase s = Sending todo next ->
     todo <> [] /\ length (queue s) = msgChan_cap /\
     (forall ev, step s (Deliver ev) = None) /\
     (forall e, exists s', step s (Cancel e) = Some s' /\
                           phase s' = Sending todo next /\
                           queue s' = queue s /\ errors s' = []) /\
     (exists s', exec s (List.repeat Receive (length todo)) = Some s' /\
                 match phase s' with Sending _ _ => False | _ => True end)) /\
  (forall w e,
     phase s = AtSelect w -> cancelled s = Some e ->
     exists s', step s (Deliver StreamClosed) = Some s' /\
                phase s' = Gone /\ errors s' = [] /\
                msgChan_closes s' = 1%nat /\ errChan_closes s' = 1%nat).
Proof.
  intros Hreach. pose proof (reachable_sound acts s Hreach) as Hs. split.
  - intros todo next Hph. pose proof Hs as [_ Hs']. rewrite Hph in Hs'.
    destruct Hs' as (Hne & Hfull & _ & _ & He & _).
    repeat split; try assumption.
    + intros ev. cbn [step]. rewrite Hph. reflexivity.
    + intros e. eexists. split; [reflexivity|]. cbn. repeat split; assumption.
    + exact (receive_blocked todo s next Hs Hph).
  - intros w e Hph Hcx. pose proof Hs as [_ Hs']. rewrite Hph in Hs'.
    destruct Hs' as ((_ & He & _) & _).
    destruct (step_exit s w StreamClosed w Hs Hph eq_refl eq_refl eq_refl)
      as (s1 & H1 & G1 & E1 & M1 & C1 & _).
    exists s1. rewrite He in E1. repeat split; assumption.
Qed.

End ChannelClaims.


Module chunk_facts.
Import chatmodel.

Lemma cut_split s d l rest :
  bytes.cut s d = Some (l, rest) ->
  exists line, l = line +:+ String d "" /\ s = line +:+ String d rest /\
               bytes.cut line d = None.
Proof.
  revert l. induction s as [|c s IH]; intros l; cbn; [discriminate|].
  destruct (Ascii.eqb_spec c d) as [->|Hc].
  - intros [= <- <-]. exists "". repeat split.
  - destruct (bytes.cut s d) as [[l' r']|]; [|discriminate].
    intros [= <- <-]. destruct (IH l' eq_refl) as (line & -> & -> & Hl).
    exists (String c line). repeat split. cbn.
    destruct (Ascii.eqb_spec c d); [contradiction|]. rewrite Hl. reflexivity.
Qed.

Lemma ends_cut s :
  ends_with_LF s = true ->
  exists line rest, s = line +:+ String LF rest /\ bytes.cut line LF = None /\
                    (rest = "" \/ ends_with_LF rest = true).
Proof.
  induction s as [|c s IH]; [discriminate|]. intros He.
  destruct (Ascii.eqb_spec c LF) as [->|Hc].
  - exists "", s. split; [reflexivity|]. split; [reflexivity|].
    destruct s; [left; reflexivity|right; exact He].
  - destruct s as [|c' s'].
    + cbn in He. apply Ascii.eqb_eq in He. contradiction.
    + destruct (IH He) as (line & rest & Hs & Hl & Hr).
      exists (String c line), rest. rewrite Hs. split; [reflexivity|]. split; [|exact Hr].
      cbn. destruct (Ascii.eqb_spec c LF); [contradiction|]. rewrite Hl. reflexivity.
Qed.

Lemma drain_joined n : forall a w b,
  (String.length a <= n)%nat ->
  a = "" \/ ends_with_LF a = true ->
  match drain (holding w a) with
  | Select w1 => drain (holding w (a +:+ b)) = drain (holding w1 b)
  | Exit w1 => drain (holding w (a +:+ b)) = Exit (holding w1 (bytes.unread (buf w1) +:+ b))
  | NoFuel => False
  end.
Proof.
  induction n as [|n IH]; intros a w b Hn Ha.
  - destruct a; [|cbn in Hn; lia]. reflexivity.
  - destruct Ha as [->|Ha]; [reflexivity|].
    destruct (ends_cut a Ha) as (line & rest & -> & Hl & Hr).
    assert (Hlen : (String.length rest <= n)%nat).
    { rewrite decoder_facts.length_append in Hn. cbn in Hn. lia. }
    rewrite (decoder_facts.drain_line (holding w (line +:+ String LF rest)) line rest
               eq_refl Hl).
    rewrite (decoder_facts.drain_line
               (holding w ((line +:+ String LF rest) +:+ b)) line (rest +:+ b)
               (escape_facts.append_assoc line (String LF rest) b) Hl).
    cbv zeta.
    assert (Hrec : forall w', 
      match drain (holding w' rest) with
      | Select w1 => drain (holding w' (rest +:+ b)) = drain (holding w1 b)
      | Exit w1 => drain (holding w' (rest +:+ b)) =
                   Exit (holding w1 (bytes.unread (buf w1) +:+ b))
      | NoFuel => False
      end).
    { intros w'. apply IH; assumption. }
    repeat match goal with
      | |- match (if ?c then _ else _) with _ => _ end => destruct c
      | |- match (match ?x with _ => _ end) with _ => _ end => destruct x
      end; try (apply (Hrec w)); try reflexivity.
    match goal with |- context [send_msg _ ?m] => apply (Hrec (send_msg w m)) end.
Qed.

End chunk_facts.

(** ** The error payload, the stream worker: what a caller can rely on *)

Module payload_facts.
Import gojson agent jsonlex.

Lemma lex_control s : forall body rest,
  has_other_control s = true -> lex (LStr body) (escape_bytes s +:+ rest) = None.
Proof.
  induction s as [|c s IH]; intros body rest Hc; [discriminate|].
  cbn [has_other_control] in Hc. cbn [escape_bytes]. unfold escape_byte.
  destruct (Ascii.eqb_spec c "\"%char) as [->|Hb].
  { change (lex (LStr body) (String "\" (String "\" (escape_bytes s +:+ rest))) = None).
    cbn [lex]. cbn. apply IH. exact Hc. }
  destruct (Ascii.eqb_spec c dquote) as [->|Hq].
  { change (lex (LStr body) (String "\" (String dquote (escape_bytes s +:+ rest))) = None).
    cbn [lex]. cbn. apply IH. exact Hc. }
  destruct (Ascii.eqb_spec c "010"%char) as [->|Hn].
  { change (lex (LStr body) (String "\" (String "n" (escape_bytes s +:+ rest))) = None).
    cbn [lex]. cbn. apply IH. exact Hc. }
  change (lex (LStr body) (String c (escape_bytes s +:+ rest)) = None).
  cbn [lex].
  destruct (Ascii.eqb_spec c dquote); [contradiction|].
  destruct (Ascii.eqb_spec c "\"%char); [contradiction|].
  destruct (code c <? 32)%N eqn:Hctl; [reflexivity|].
  cbn in Hc. apply IH. exact Hc.
Qed.

End payload_facts.

Section PayloadExtras.
Import gojson agent.

(** [escapeString] loses nothing: different messages have different
    escaped forms. *)
Theorem escapeString_injective s1 s2 : escapeString s1 = escapeString s2 -> s1 = s2.
Proof.
  rewrite !loop_facts.escapeString_bytes. intros H.
  apply (f_equal jsonlex.unquote) in H.
  rewrite !escape_facts.unquote_escape_bytes in H. congruence.
Qed.

(** For an error message of printable ASCII characters and line feeds,
    the content built for a failed tool is a JSON object that decodes
    to the single member [error] holding the message as it was. *)
Theorem error_payload_round_trip e :
  plain e = true ->
  Unmarshal_map (dq "{'error':'" +:+ escapeString e +:+ dq "'}") =
    Some (Some {[ "error" := JString e ]}).
Proof.
  intros Hp. rewrite loop_facts.escapeString_bytes.
  unfold Unmarshal_map, jsonparse.parse.
  assert (Hbody : jsonlex.lex (jsonlex.LStr "") (escape_bytes e +:+ dq "'}") =
                  Some [jsonlex.TString e; jsonlex.TRBrace]).
  { change (dq "'}") with (String jsonlex.dquote "}").
    rewrite (escape_facts.lex_escaped e "" "}" Hp), decoder_facts.append_nil,
      escape_facts.unquote_escape_bytes. reflexivity. }
  assert (Hlex : jsonlex.lex jsonlex.LIdle (dq "{'error':'" +:+ escape_bytes e +:+ dq "'}") =
                 Some [jsonlex.TLBrace; jsonlex.TString "error"; jsonlex.TColon;
                       jsonlex.TString e; jsonlex.TRBrace]).
  { transitivity (cons jsonlex.TLBrace <$>
                    (ts ← cons jsonlex.TColon <$>
                            jsonlex.lex (jsonlex.LStr "") (escape_bytes e +:+ dq "'}");
                     Some (jsonlex.TString "error" :: ts))).
    { reflexivity. }
    rewrite Hbody. reflexivity. }
  rewrite Hlex. cbn. unfold object_map. cbn. rewrite insert_empty. reflexivity.
Qed.

(** An error message with a control character other than the line feed
    (a tab, a carriage return) gives a content that is not valid JSON. *)
Theorem error_payload_with_control_invalid e :
  has_other_control e = true ->
  Unmarshal_map (dq "{'error':'" +:+ escapeString e +:+ dq "'}") = None.
Proof.
  intros Hc. rewrite loop_facts.escapeString_bytes.
  unfold Unmarshal_map, jsonparse.parse.
  assert (Hlex : jsonlex.lex jsonlex.LIdle (dq "{'error':'" +:+ escape_bytes e +:+ dq "'}") = None).
  { transitivity (cons jsonlex.TLBrace <$>
                    (ts ← cons jsonlex.TColon <$>
                            jsonlex.lex (jsonlex.LStr "") (escape_bytes e +:+ dq "'}");
                     Some (jsonlex.TString "error" :: ts))).
    { reflexivity. }
    rewrite (payload_facts.lex_control e "" (dq "'}") Hc). reflexivity. }
  rewrite Hlex. reflexivity.
Qed.

End PayloadExtras.

Section StreamExtras.
Import chatmodel.

(** Whatever arrives, the worker sends at most one error, and only
    when it returns: while it waits in [select] the error channel has
    received nothing, so the send on the one-slot channel cannot block. *)
Theorem Stream_at_most_one_error evs :
  match Stream evs with
  | Select w => errChan w = []
  | Exit w => (length (errChan w) <= 1)%nat
  | NoFuel => False
  end.
Proof.
  pose proof (stream_facts.serve_inv evs Worker_init stream_facts.waiting_init) as H.
  unfold Stream. destruct (serve Worker_init evs); [|exact (proj2 H)|exact H].
  exact (proj1 (proj2 H)).
Qed.

(** Every message the worker sends has the role assistant and a
    non-empty content. *)
Theorem Stream_fragments evs w :
  Stream evs = Select w \/ Stream evs = Exit w ->
  Forall (fun m => MsgRole m = RoleAssistant /\ Content m <> "") (msgChan w).
Proof.
  pose proof (stream_facts.serve_inv evs Worker_init stream_facts.waiting_init) as H.
  unfold Stream. intros [E|E]; rewrite E in H; exact (proj1 H).
Qed.

(** Each time the worker is back at [select] its buffer is empty: the
    bytes after the last line feed of a chunk are not kept for the
    next chunk. *)
Theorem Stream_buffer_empty evs w :
  Stream evs = Select w -> bytes.unread (buf w) = "".
Proof.
  pose proof (stream_facts.serve_inv evs Worker_init stream_facts.waiting_init) as H.
  unfold Stream. intros E. rewrite E in H. exact (proj2 (proj2 H)).
Qed.

(** Chunks that end at a line feed compose: two chunks, the first of
    which is empty or ends with a line feed, give the consumer what the
    two in one chunk give. *)
Theorem chunks_at_line_ends w a b evs :
  bytes.unread (buf w) = "" ->
  a = "" \/ ends_with_LF a = true ->
  observe (serve w (RecvChunk a :: RecvChunk b :: evs)) =
  observe (serve w (RecvChunk (a +:+ b) :: evs)).
Proof.
  intros Hb Ha. cbn [serve on_event]. unfold bytes.Write. rewrite Hb.
  rewrite !decoder_facts.append_nil.
  pose proof (chunk_facts.drain_joined (String.length a) a w b (le_n _) Ha) as H.
  change (with_buf w {| bytes.unread := a |}) with (holding w a).
  change (with_buf w {| bytes.unread := a +:+ b |}) with (holding w (a +:+ b)).
  destruct (drain (holding w a)) as [w1|w1|] eqn:E; [| |contradiction].
  - rewrite H. apply decoder_facts.drain_select_empty in E.
    cbn [serve on_event]. unfold bytes.Write. rewrite E, decoder_facts.append_nil.
    reflexivity.
  - rewrite H. reflexivity.
Qed.

(** How the worker returns from [select]: a cancelled context sends the
    context's error and nothing else; an error of the transport sends
    it behind "failed to read stream: "; a closed chunk or error
    channel sends no error.  In each case the messages are those sent
    so far and what arrives later is not read. *)
Theorem Stream_exits evs w later :
  Stream evs = Select w ->
  (forall e, Stream (evs ++ CtxDone e :: later) = Exit (send_err w e) /\
             errChan (send_err w e) = [e]) /\
  (forall e, Stream (evs ++ RecvErr (Some e) :: later) =
               Exit (send_err w ("failed to read stream: " +:+ e)) /\
             errChan (send_err w ("failed to read stream: " +:+ e)) =
               ["failed to read stream: " +:+ e]) /\
  Stream (evs ++ StreamClosed :: later) = Exit w /\
  Stream (evs ++ ErrsClosed :: later) = Exit w /\
  errChan w = [].
Proof.
  intros E.
  pose proof (stream_facts.serve_inv evs Worker_init stream_facts.waiting_init) as H.
  unfold Stream in *. rewrite E in H. destruct H as (_ & He & _).
  repeat split; intros;
    try (rewrite (stream_facts.serve_app_select evs _ Worker_init w E); reflexivity);
    try exact He; cbn; rewrite He; reflexivity.
Qed.

End StreamExtras.

(** ** The HTTP client and the model clients *)

Module url_facts.
Import httpclient.

Lemma last_slash s :
  is_slash (last_byte s) = true -> s = drop_last s +:+ "/".
Proof.
  induction s as [|c s IH]; [discriminate|].
  destruct s as [|c' s'].
  - cbn. intros H. apply Ascii.eqb_eq in H. subst c. reflexivity.
  - intros H. change (String c (String c' s') =
                      String c (drop_last (String c' s') +:+ "/")).
    f_equal. apply IH. exact H.
Qed.

Lemma first_slash p :
  is_slash (first_byte p) = true -> p = "/" +:+ strings.drop_bytes 1 p.
Proof.
  destruct p as [|c p]; [discriminate|]. cbn. intros H.
  apply Ascii.eqb_eq in H. subst c. reflexivity.
Qed.

Lemma options_keep (opts : list Option) : forall c,
  Forall package_option opts ->
  0 < timeout c -> header c <> None ->
  let c' := fold_left (fun c opt => match opt with Some f => f c | None => c end) opts c in
  0 < timeout c' /\ header c' <> None /\ baseUrl c' = baseUrl c /\ path c' = path c.
Proof.
  induction opts as [|opt opts IH]; intros c Hall Ht Hh; cbn; [auto|].
  inversion Hall as [|? ? Hopt Hrest]; subst.
  destruct Hopt as [->|[(h & ->)|(d & ->)]]; cbn.
  - apply IH; assumption.
  - destruct h as [m|]; [|apply IH; assumption].
    destruct (IH {| baseUrl := baseUrl c; path := path c; header := Some m;
                    timeout := timeout c |} Hrest Ht ltac:(discriminate))
      as (H1 & H2 & H3 & H4). auto.
  - destruct (Z.leb_spec d 0); [apply IH; assumption|].
    destruct (IH {| baseUrl := baseUrl c; path := path c; header := header c;
                    timeout := d |} Hrest ltac:(cbn; lia) Hh)
      as (H1 & H2 & H3 & H4). auto.
Qed.

Lemma last_byte_append_slash s : last_byte (s +:+ "/") = Some "/"%char.
Proof.
  induction s as [|c s IH]; [reflexivity|].
  rewrite decoder_facts.append_cons. destruct s as [|c' s']; [reflexivity|].
  rewrite decoder_facts.append_cons in *. exact IH.
Qed.

Lemma NewHTTPClient_header_timeout base p hd d :
  NewHTTPClient base p [WithHeader (Some hd); WithTimeout d] =
    {| baseUrl := base; path := p; header := Some hd;
       timeout := if d <=? 0 then 30 * Second else d |}.
Proof. unfold NewHTTPClient. cbn. destruct (d <=? 0); reflexivity. Qed.

End url_facts.

Section HttpExtras.
Import httpclient.

(** [buildURL] joins a non-empty base and a non-empty path with one
    slash: the result is the base without one trailing slash, a slash,
    and the path without one leading slash.  An empty base gives the
    path, an empty path the base, a nil client the empty string. *)
Theorem buildURL_joint c :
  buildURL None = "" /\
  buildURL (Some c) =
    if String.eqb (baseUrl c) "" then path c
    else if String.eqb (path c) "" then baseUrl c
    else without_trailing_slash (baseUrl c) +:+ "/" +:+ without_leading_slash (path c).
Proof.
  split; [reflexivity|]. unfold buildURL, without_trailing_slash, without_leading_slash.
  destruct (String.eqb (baseUrl c) ""); [reflexivity|].
  destruct (String.eqb (path c) ""); [reflexivity|].
  destruct (is_slash (last_byte (baseUrl c))) eqn:Hb;
    destruct (is_slash (first_byte (path c))) eqn:Hp; cbn [andb negb].
  - rewrite (url_facts.last_slash _ Hb) at 1.
    rewrite escape_facts.append_assoc. reflexivity.
  - rewrite (url_facts.last_slash _ Hb) at 1.
    rewrite escape_facts.append_assoc. reflexivity.
  - rewrite (url_facts.first_slash _ Hp) at 1. reflexivity.
  - reflexivity.
Qed.

(** A client built by [NewHTTPClient] from the options of the package
    has a positive timeout and a header, and the base and path it was
    given: a timeout that is not positive and a nil header are
    ignored. *)
Theorem NewHTTPClient_invariants base p opts :
  Forall package_option opts ->
  0 < timeout (NewHTTPClient base p opts) /\
  header (NewHTTPClient base p opts) <> None /\
  baseUrl (NewHTTPClient base p opts) = base /\
  path (NewHTTPClient base p opts) = p.
Proof.
  intros Hall. unfold NewHTTPClient.
  apply (url_facts.options_keep opts
           {| baseUrl := base; path := p; header := Some defaultHeader;
              timeout := 30 * Second |} Hall); cbn; [reflexivity|discriminate].
Qed.

End HttpExtras.

Section ChatExtras.
Import chatmodel.
Context {Custom Net : Type}.
Variable Send : @IHTTPClient Custom -> Net -> QWenRequest -> (HTTPResponse + error) * Net.
Variable json_error : string -> error.

(** [NewQWenModelClient] returns either a client or an error, never
    both and never neither; without a token it fails before any option
    runs; and a client it returns always has an HTTP client. *)
Theorem NewQWenModelClient_outcomes authToken (opts : list (@Option Custom)) :
  (authToken = "" ->
   NewQWenModelClient authToken opts = (None, Some "authToken is required")) /\
  match NewQWenModelClient authToken opts with
  | (Some c, None) => authToken <> "" /\ HTTPClient c <> None
  | (None, Some _) => True
  | _ => False
  end.
Proof.
  unfold NewQWenModelClient. split.
  - intros ->. reflexivity.
  - destruct (String.eqb_spec authToken ""); [exact I|].
    destruct (run_options _ opts) as [c|err]; [|exact I].
    destruct (HTTPClient c) eqn:E; cbn; (split; [assumption|]); congruence.
Qed.

(** When no option supplies an HTTP client, the one the constructor
    builds has a positive timeout: the client's [Timeout] when that is
    positive, and 30 seconds otherwise, whatever [Timeout] says; it
    carries the token in its [Authorization] header. *)
Theorem NewQWenModelClient_default_client authToken (opts : list (@Option Custom)) c0 :
  authToken <> "" ->
  run_options {| BaseUrl := ""; AuthToken := authToken;
                 Timeout := 5 * httpclient.Minute;
                 Path := "chat/completions"; HTTPClient := None |} opts = inl c0 ->
  HTTPClient c0 = None ->
  exists c h,
    NewQWenModelClient authToken opts = (Some c, None) /\
    HTTPClient c = Some (PackageClient h) /\
    Timeout c = Timeout c0 /\
    httpclient.timeout h =
      (if Timeout c0 <=? 0 then 30 * httpclient.Second else Timeout c0) /\
    0 < httpclient.timeout h /\
    httpclient.baseUrl h =
      (if String.eqb (BaseUrl c0) "" then default_base else BaseUrl c0) /\
    httpclient.path h = Path c0 /\
    (exists hd, httpclient.header h = Some hd /\
                hd !! "Authorization" = Some ("Bearer " +:+ AuthToken c0)).
Proof.
  intros Htok Hrun Hnil. unfold NewQWenModelClient.
  destruct (String.eqb_spec authToken ""); [contradiction|].
  rewrite Hrun, Hnil, url_facts.NewHTTPClient_header_timeout.
  eexists _, _. split; [reflexivity|]. split; [reflexivity|].
  cbn [Timeout httpclient.timeout httpclient.baseUrl httpclient.path httpclient.header].
  repeat split.
  - destruct (Z.leb_spec (Timeout c0) 0); [reflexivity|lia].
  - eexists. split; [reflexivity|]. unfold httpclient.HTTPHeader.
    rewrite !lookup_insert_ne by discriminate. apply lookup_insert_eq.
Qed.

(** [QWenModelClient.Generate] returns either a message or an error,
    never both and never neither, and the message always has the role
    assistant: this client never hands back a tool-role message. *)
Theorem QWen_Generate_outcomes (c : @QWenModelClient Custom) net model messages tools reply net' :
  QWen_Generate Send json_error c net model messages tools = Some (reply, net') ->
  match reply with
  | (Some msg, None) => MsgRole msg = RoleAssistant
  | (None, Some _) => True
  | _ => False
  end.
Proof.
  unfold QWen_Generate. destruct (HTTPClient c) as [h|]; [|discriminate].
  destruct (Send h net _) as [[resp|err] net1]; [|intros [= <- _]; exact I].
  destruct (negb (StatusCode resp =? 200)); [intros [= <- _]; exact I|].
  destruct (Unmarshal_response (Body resp)) as [r|]; [|intros [= <- _]; exact I].
  destruct (RespChoices r); intros [= <- _]; [exact I|reflexivity].
Qed.

(** The request has one message per message of the history, and its
    tools list the bound tools by name in their order.  A history
    whose roles are among the four constants is determined by the
    request messages among such histories; a role outside the four
    constants is sent as "user", like [RoleUser]. *)
Theorem build_request_faithful model messages tools stream :
  Forall (fun m => known_role (MsgRole m) = true) messages ->
  (forall messages',
     Forall (fun m => known_role (MsgRole m) = true) messages' ->
     reqMessages messages = reqMessages messages' -> messages = messages') /\
  (forall r content,
     known_role r = false ->
     reqMessages [{| MsgRole := r; Content := content |}] =
       reqMessages [{| MsgRole := RoleUser; Content := content |}]) /\
  length (ReqMessages (build_request model messages tools stream)) = length messages /\
  map function_name (ReqTools (build_request model messages tools stream)) =
    map tool.Name tools.
Proof.
  intros Hknown. split; [|split; [|split]].
  - induction Hknown as [|m ms Hm Hms IH]; intros [|m' ms'] Hknown'; cbn;
      try discriminate; [reflexivity|].
    inversion Hknown' as [|? ? Hm' Hms']; subst.
    intros [= Hr Hc Hrest]. f_equal; [|apply IH; assumption].
    destruct m as [r c], m' as [r' c']. cbn in *. subst c'. f_equal.
    unfold known_role, RoleUser, RoleTool in Hm, Hm'.
    apply andb_true_iff in Hm as [H0 H3]. apply andb_true_iff in Hm' as [H0' H3'].
    apply Z.leb_le in H0, H3, H0', H3'.
    assert (Hr4 : r = 0 \/ r = 1 \/ r = 2 \/ r = 3) by lia.
    assert (Hr4' : r' = 0 \/ r' = 1 \/ r' = 2 \/ r' = 3) by lia.
    destruct Hr4 as [-> | [-> | [-> | ->]]]; destruct Hr4' as [-> | [-> | [-> | ->]]];
      try reflexivity; vm_compute in Hr; discriminate.
  - intros r content Hr. cbn. f_equal. f_equal.
    unfold known_role, RoleUser, RoleTool in Hr. unfold Role_String.
    destruct (Z.eqb_spec r RoleUser) as [->|H0]; [reflexivity|].
    destruct (Z.eqb_spec r RoleSystem) as [->|H1]; [discriminate|].
    destruct (Z.eqb_spec r RoleAssistant) as [->|H2]; [discriminate|].
    destruct (Z.eqb_spec r RoleTool) as [->|H3]; [discriminate|]. reflexivity.
  - cbn. unfold reqMessages. apply length_map.
  - cbn. destruct tools as [|t ts]; [reflexivity|].
    cbn [length Nat.ltb Nat.leb]. unfold qwenTools. rewrite map_map. reflexivity.
Qed.

(** [NewChatModel] checks the client, the model name and the API key
    in this order; a model it returns has a client, a model name and an
    API key, a timeout that is not zero, a base URL that is empty or
    ends with a slash, and no tools bound; and constructing again from
    that model's configuration changes nothing. *)
Theorem NewChatModel_outcomes (config : @ChatModelConfig Custom) opts :
  let cfg := fold_left (fun config opt => opt config) opts config in
  (NewChatModel config opts).1.2 =
    (if bool_decide (Client cfg = None) then Some "client is required"
     else if String.eqb (Model cfg) "" then Some "model is required"
     else if String.eqb (APIKey cfg) "" then Some "api key is required"
     else None) /\
  match (NewChatModel config opts).1.1 with
  | None => (NewChatModel config opts).1.2 <> None
  | Some m =>
      (NewChatModel config opts).1.2 = None /\
      (NewChatModel config opts).2 = conf m /\
      client m = Client cfg /\ client m <> None /\
      Model (conf m) <> "" /\ APIKey (conf m) <> "" /\
      ConfTimeout (conf m) <> 0 /\
      (ConfBaseUrl (conf m) = "" \/ ends_with_slash (ConfBaseUrl (conf m)) = true) /\
      tools m = [] /\
      NewChatModel (conf m) [] = (Some m, None, conf m)
  end.
Proof.
  intros cfg. unfold NewChatModel. fold cfg.
  destruct (Client cfg) as [cl|] eqn:Hcl; cbn [fst snd];
    [rewrite bool_decide_eq_false_2 by discriminate
    |rewrite bool_decide_eq_true_2 by reflexivity; split; [reflexivity|discriminate]].
  destruct (Model cfg) as [|mc ms] eqn:Hmodel; cbn [String.length Nat.eqb String.eqb fst snd];
    [split; [reflexivity|discriminate]|].
  destruct (APIKey cfg) as [|kc ks] eqn:Hkey; cbn [String.length Nat.eqb String.eqb fst snd];
    [split; [reflexivity|discriminate]|].
  split; [reflexivity|]. cbn [conf client tools Client Model APIKey ConfTimeout ConfBaseUrl].
  set (t := if ConfTimeout cfg =? 0 then httpclient.Minute else ConfTimeout cfg).
  set (b := if (0 <? String.length (ConfBaseUrl cfg))%nat && negb (ends_with_slash (ConfBaseUrl cfg))
            then ConfBaseUrl cfg +:+ "/" else ConfBaseUrl cfg).
  assert (Ht : t <> 0).
  { subst t. destruct (Z.eqb_spec (ConfTimeout cfg) 0); [discriminate|assumption]. }
  assert (Hb : (0 <? String.length b)%nat && negb (ends_with_slash b) = false).
  { subst b. destruct (ConfBaseUrl cfg) as [|c s] eqn:Hbase; [reflexivity|].
    cbn [String.length Nat.ltb Nat.leb andb].
    destruct (ends_with_slash (String c s)) eqn:He; cbn [negb].
    - rewrite He. apply andb_false_r.
    - unfold ends_with_slash. rewrite url_facts.last_byte_append_slash.
      apply andb_false_r. }
  repeat split; try discriminate; try assumption.
  - destruct b as [|c s]; [left; reflexivity|right].
    cbn [String.length Nat.ltb Nat.leb andb] in Hb. apply negb_false_iff in Hb. exact Hb.
  - unfold NewChatModel. cbn [fold_left Client Model APIKey ConfTimeout ConfBaseUrl].
    cbn [String.length Nat.eqb]. rewrite Hb.
    destruct (Z.eqb_spec t 0); [contradiction|]. reflexivity.
Qed.

End ChatExtras.

Section BackendExtras.
Import chatmodel.
Context {Value : Type} (json_Marshal : Value -> option string) (fmt_v : Value -> string).
Context {Custom Net : Type}.
Variable Send : @IHTTPClient Custom -> Net -> QWenRequest -> (HTTPResponse + error) * Net.
Variable json_error : string -> error.

Lemma as_agent_model_reply (st : ChatModel * Net) history cl h :
  client st.1 = Some cl -> HTTPClient cl = Some h ->
  (exists msg, (agent.ModelGenerate (as_agent_model Send json_error) st history).1 =
                 (Some msg, None) /\ MsgRole msg = RoleAssistant) \/
  (exists e, (agent.ModelGenerate (as_agent_model Send json_error) st history).1 =
               (None, Some e)).
Proof.
  intros Hcl Hh. cbn. unfold ChatModel_Generate, QWen_Generate. rewrite Hcl, Hh.
  destruct (Send h st.2 _) as [[resp|err] net1]; [|right; eauto].
  destruct (negb (StatusCode resp =? 200)); [right; eauto|].
  destruct (Unmarshal_response (Body resp)) as [r|]; [|right; eauto].
  destruct (RespChoices r); [right; eauto|left; eauto].
Qed.

(** With the QWen client behind the model, an agent with a budget of at
    least one step calls the model exactly once per invocation, for
    every reply is an assistant message or an error: it returns the
    answer, appended to the history, or the error, and never runs a
    tool. *)
Theorem agent_over_QWen_single_call
    (r : @agent.ReactAgent Value (ChatModel * Net)) w history cl h :
  agent.Model (agent.conf r) = Some (as_agent_model Send json_error) ->
  client (agent.model_state w).1 = Some cl ->
  HTTPClient cl = Some h ->
  1 <= agent.MaxStep (agent.conf r) ->
  length (agent.made w (agent.Generate json_Marshal fmt_v r w history).2) = 1%nat /\
  agent.res_state (agent.Generate json_Marshal fmt_v r w history).1.1 = None /\
  match agent.res_err (agent.Generate json_Marshal fmt_v r w history).1.1 with
  | None =>
      MsgRole (agent.res_msg (agent.Generate json_Marshal fmt_v r w history).1.1) =
        RoleAssistant /\
      agent.messages (agent.state (agent.Generate json_Marshal fmt_v r w history).1.2) =
        agent.messages (agent.state r) ++ history ++
          [agent.res_msg (agent.Generate json_Marshal fmt_v r w history).1.1]
  | Some e =>
      agent.res_msg (agent.Generate json_Marshal fmt_v r w history).1.1 = agent.assistant e /\
      agent.messages (agent.state (agent.Generate json_Marshal fmt_v r w history).1.2) =
        agent.messages (agent.state r) ++ history
  end.
Proof.
  intros Hm Hcl Hh Hn. unfold agent.Generate. rewrite Hm.
  destruct (Z.to_nat (agent.MaxStep (agent.conf r))) as [|n] eqn:En; [lia|].
  cbn [agent.loop]. unfold agent.call_model.
  pose proof (as_agent_model_reply (agent.model_state w)
                (agent.messages (agent.state r) ++ history) cl h Hcl Hh) as Hreply.
  destruct (agent.ModelGenerate _ (agent.model_state w) _) as [reply st'].
  cbn [fst] in Hreply. unfold agent.made.
  destruct Hreply as [(msg & -> & Hrole)|(e & ->)]; cbn [agent.react].
  - rewrite Hrole. cbn. rewrite drop_app_length, Hrole, <- app_assoc. auto.
  - cbn. rewrite drop_app_length. auto.
Qed.

End BackendExtras.

Section CalculatorExtras.
Import gojson agent calculator.
Variable json_Marshal : CalcValue -> option string.
Variable fmt_v : CalcValue -> string.


(** A call of the calculator without a string [expression] does not
    end the turn: the request and the tool message with the error
    payload are appended and the loop goes on. *)
Theorem calculator_error_fed_back tools msgs msg call :
  MsgRole msg = RoleTool ->
  parseToolCall (Content msg) = (call, true) ->
  select_tool tools (CallName call) = Some CalculatorTool ->
  as_string (index (Args call) "expression") = None ->
  react json_Marshal fmt_v tools msgs (Some msg, None) =
    Continue (msgs ++ [msg; {| MsgRole := RoleTool;
                               Content := dq "{'error':'表达式参数错误'}" |}]).
Proof.
  intros Hrole Hparse Hsel Hexpr.
  rewrite (loop_facts.react_registered json_Marshal fmt_v tools msgs msg call
             CalculatorTool Hrole Hparse Hsel).
  cbn [agent.Execute CalculatorTool]. unfold Execute. rewrite Hexpr. reflexivity.
Qed.

End CalculatorExtras.

(** ** The further properties at concrete inputs *)

Section ExtraInstances.
Import gojson tool agent fixture.

Lemma Generate_state_when_exhausted_witness :
  length (made (world tt)
            (Generate marshal fmt (agent_of 3 (Some always_calculator) tools)
               (world tt) hello).2) = 3%nat.
Proof.
  destruct (Generate_state_when_exhausted marshal fmt
              (agent_of 3 (Some always_calculator) tools) (world tt) hello
              {| messages := hello ++ calculated ++ calculated ++ calculated |})
    as (_ & _ & _ & H); [vm_compute; reflexivity|exact H].
Defined.

Lemma model_sees_growing_history_witness :
  react marshal fmt (Tools (conf agent8)) hello (Some (request "calculator"), None) =
    Continue (hello ++ calculated).
Proof.
  destruct (model_sees_growing_history marshal fmt agent8 (world script_answer) hello
              scripted eq_refl) as (_ & H).
  destruct (H 0%nat hello (Some (request "calculator"), None)
              (hello ++ calculated) (Some answer, None)) as (Hr & _);
    [vm_compute; reflexivity ..|exact Hr].
Defined.

Lemma Generate_invalid_payload_witness :
  (Generate marshal fmt agent8 (world script_invalid) hello).1.1 =
    {| res_msg := assistant "invalid tool call payload";
       res_err := None; res_state := None |}.
Proof.
  destruct (Generate_invalid_payload marshal fmt agent8 (world script_invalid) hello
              0%nat hello garbled) as (H & _); [vm_compute; reflexivity ..|exact H].
Defined.

Lemma Generate_empty_reply_witness :
  (Generate marshal fmt agent8 (world []) hello).1.1 =
    {| res_msg := assistant "empty message returned";
       res_err := None; res_state := None |}.
Proof.
  destruct (Generate_empty_reply marshal fmt agent8 (world []) hello 0%nat hello)
    as (H & _); [vm_compute; reflexivity|exact H].
Defined.

Lemma Generate_echo_budget_witness :
  length (messages (state (Generate marshal fmt (agent_of 2 (Some always_echo) tools)
                             (world tt) hello).1.2)) = 3%nat.
Proof.
  destruct (Generate_echo_budget marshal fmt (agent_of 2 (Some always_echo) tools)
              (world tt) hello always_echo) as (_ & _ & _ & H).
  - reflexivity.
  - intros s h. exists (user "again"). split; [reflexivity|left; reflexivity].
  - exact H.
Defined.

Lemma escapeString_injective_witness : "bad" +:+ TAB = "bad" +:+ TAB.
Proof. apply (escapeString_injective ("bad" +:+ TAB) ("bad" +:+ TAB)). reflexivity. Defined.

Lemma error_payload_round_trip_witness :
  Unmarshal_map (dq "{'error':'" +:+ escapeString "division by zero" +:+ dq "'}") =
    Some (Some {[ "error" := JString "division by zero" ]}).
Proof. apply (error_payload_round_trip "division by zero"). reflexivity. Defined.

Lemma error_payload_with_control_invalid_witness :
  Unmarshal_map (dq "{'error':'" +:+ escapeString ("bad" +:+ TAB +:+ "input") +:+ dq "'}") =
    None.
Proof.
  apply (error_payload_with_control_invalid ("bad" +:+ TAB +:+ "input")). reflexivity.
Defined.

Lemma Stream_fragments_witness :
  Forall (fun m => MsgRole m = RoleAssistant /\ Content m <> "")
    (chatmodel.msgChan after_frame).
Proof.
  apply (Stream_fragments [chatmodel.RecvChunk frame] after_frame).
  left. vm_compute. reflexivity.
Defined.

Lemma Stream_buffer_empty_witness : bytes.unread (chatmodel.buf after_frame) = "".
Proof.
  apply (Stream_buffer_empty [chatmodel.RecvChunk frame] after_frame).
  vm_compute. reflexivity.
Defined.

Lemma chunks_at_line_ends_witness :
  chatmodel.observe
    (chatmodel.serve chatmodel.Worker_init
       [chatmodel.RecvChunk frame; chatmodel.RecvChunk done]) =
  chatmodel.observe
    (chatmodel.serve chatmodel.Worker_init [chatmodel.RecvChunk (frame +:+ done)]).
Proof.
  apply (chunks_at_line_ends chatmodel.Worker_init frame done []);
    [reflexivity|right; vm_compute; reflexivity].
Defined.

Lemma Stream_exits_witness :
  chatmodel.Stream ([chatmodel.RecvChunk frame] ++ [chatmodel.CtxDone "context canceled"]) =
    chatmodel.Exit (chatmodel.send_err after_frame "context canceled").
Proof.
  destruct (Stream_exits [chatmodel.RecvChunk frame] after_frame []) as (H & _);
    [vm_compute; reflexivity|].
  exact (proj1 (H "context canceled")).
Defined.

Lemma NewHTTPClient_invariants_witness :
  0 < httpclient.timeout
        (httpclient.NewHTTPClient "https://example.test" "v1"
           [httpclient.WithTimeout 0; None; httpclient.WithHeader None]).
Proof.
  destruct (NewHTTPClient_invariants "https://example.test" "v1"
              [httpclient.WithTimeout 0; None; httpclient.WithHeader None]) as (H & _);
    [|exact H].
  unfold httpclient.package_option.
  constructor; [right; right; exists 0; reflexivity|].
  constructor; [left; reflexivity|].
  constructor; [right; left; exists None; reflexivity|constructor].
Defined.

Lemma NewQWenModelClient_default_client_witness :
  exists c h,
    chatmodel.NewQWenModelClient (Custom := Empty_set) "sk-test" [chatmodel.WithTimeout 0] =
      (Some c, None) /\
    chatmodel.HTTPClient c = Some (chatmodel.PackageClient h) /\
    chatmodel.Timeout c = 0 /\
    httpclient.timeout h = 30 * httpclient.Second.
Proof.
  destruct (NewQWenModelClient_default_client (Custom := Empty_set) "sk-test"
              [chatmodel.WithTimeout 0]
              {| chatmodel.BaseUrl := ""; chatmodel.AuthToken := "sk-test";
                 chatmodel.Timeout := 0; chatmodel.Path := "chat/completions";
                 chatmodel.HTTPClient := None |})
    as (c & h & H1 & H2 & H3 & H4 & _); [discriminate|reflexivity|reflexivity|].
  exists c, h. auto.
Defined.

Lemma QWen_Generate_outcomes_witness :
  MsgRole {| MsgRole := RoleAssistant; Content := "4" |} = RoleAssistant.
Proof.
  apply (QWen_Generate_outcomes send json_error qwen tt "qwen3" hello []
           (Some {| MsgRole := RoleAssistant; Content := "4" |}, None) tt).
  vm_compute. reflexivity.
Defined.

Lemma agent_over_QWen_single_call_witness :
  length (made (world (chat, tt))
            (Generate marshal fmt qwen_agent (world (chat, tt)) hello).2) = 1%nat.
Proof.
  destruct (agent_over_QWen_single_call marshal fmt send json_error qwen_agent
              (world (chat, tt)) hello qwen (chatmodel.PackageClient http)) as (H & _);
    [reflexivity|reflexivity|reflexivity|vm_compute; discriminate|exact H].
Defined.

Lemma calculator_error_fed_back_witness :
  react no_marshal no_fmt [calculator.CalculatorTool] hello (Some bad_expression, None) =
    Continue (hello ++ [bad_expression;
                        {| MsgRole := RoleTool;
                           Content := dq "{'error':'表达式参数错误'}" |}]).
Proof.
  apply (calculator_error_fed_back no_marshal no_fmt [calculator.CalculatorTool] hello
           bad_expression
           {| CallName := "calculator";
              Args := Some {[ "expression" := JNumber "5" ]} |});
    vm_compute; reflexivity.
Defined.


Lemma cancel_outside_pending_read_witness :
  chatmodel.step blocked_system
    (chatmodel.Deliver (chatmodel.CtxDone "context canceled")) = None /\
  length (chatmodel.queue blocked_system) = 10%nat.
Proof.
  destruct (cancel_outside_pending_read
              [chatmodel.Deliver (chatmodel.RecvChunk eleven_frames);
               chatmodel.Cancel "context canceled"]
              blocked_system) as [H _]; [vm_compute; reflexivity|].
  destruct (H [hello_fragment]
              (chatmodel.Select
                 {| chatmodel.buf := {| bytes.unread := "" |};
                    chatmodel.msgChan := List.repeat hello_fragment 11;
                    chatmodel.errChan := [] |}) eq_refl)
    as (_ & Hfull & Hno & _).
  split; [apply Hno|exact Hfull].
Defined.

Lemma build_request_faithful_witness :
  length (chatmodel.ReqMessages (chatmodel.build_request "qwen3" hello [] false)) =
    length hello.
Proof.
  destruct (build_request_faithful "qwen3" hello [] false) as (_ & _ & H & _);
    [repeat constructor|exact H].
Defined.

End ExtraInstances.
